(** * Conflict detection for drone missions

    A shallow embedding of [src/models/mission.py] and
    [src/conflict/conflict_detector.py].

    Modelling choices:
    - Python floats (coordinates, distances) are modelled as real numbers
      [R]; [np.sqrt] is [sqrt].  All scenario coordinates are small
      integers, which floats represent exactly.
    - [datetime] values are modelled as [Z] microseconds since an epoch
      (datetime has microsecond resolution); an absent timestamp is [None].
    - A Python exception is an [Err] of the result monad below: [ValueError]
      carries the message of the source, [TypeError] is what Python raises
      when it compares or subtracts [None].
    - The conflict time, computed in Python as
      [start + timedelta(seconds=ratio * diff)], is kept as the exact real
      [start + ratio * diff]; the rounding of [timedelta] to whole
      microseconds is not modelled.
    - The [description] field of [Conflict] is a formatted string of the
      other fields; it is not modelled.
    - The real-number model has neither rounding, overflow nor underflow,
      and its datetimes are all naive.  The module [Binary64] below repeats
      the detector and the constructors in binary64 floating point, with
      Python's [OverflowError] of [float ** 2] and the conversions of
      [timedelta] and [datetime] written out; it is used where rounding
      matters. *)

From Stdlib Require Import ZArith Lia Reals Lra List String Sorting Permutation Bool.
From Stdlib Require SpecFloat.
Import ListNotations.
Open Scope R_scope.

(** ** Python exceptions and the result monad *)

Inductive exn :=
| ValueError (msg : string)
| TypeError.

Inductive result (A : Type) :=
| Ok (a : A)
| Err (e : exn).
Arguments Ok {A} a.
Arguments Err {A} e.

Definition bind {A B} (m : result A) (k : A -> result B) : result B :=
  match m with
  | Ok a => k a
  | Err e => Err e
  end.

Notation "'let*' x ':=' m 'in' k" := (bind m (fun x => k))
  (at level 200, x name, m at level 100, k at level 200).

(** Boolean comparisons on reals, as Python evaluates [<] and [<=] on floats. *)
Definition Rltb (x y : R) : bool := if Rlt_dec x y then true else false.
Definition Rleb (x y : R) : bool := if Rle_dec x y then true else false.
Definition Reqb (x y : R) : bool := if Req_EM_T x y then true else false.

(** ** models/mission.py *)

(** [@dataclass class Waypoint] *)
Record Waypoint := mkWaypoint {
  x : R;
  y : R;
  z : option R;
  timestamp : option Z
}.

(** [Waypoint.__post_init__]: the dataclass constructor followed by the
    validation of its coordinates. *)
Definition Waypoint_new (x0 y0 : R) (z0 : option R) (ts : option Z)
  : result Waypoint :=
  if Rltb x0 0 || Rltb y0 0 then Err (ValueError "Coordinates cannot be negative")
  else match z0 with
       | Some zz => if Rltb zz 0 then Err (ValueError "Altitude cannot be negative")
                    else Ok (mkWaypoint x0 y0 z0 ts)
       | None => Ok (mkWaypoint x0 y0 z0 ts)
       end.

(** [@dataclass class Mission] *)
Record Mission := mkMission {
  waypoints : list Waypoint;
  start_time : Z;
  end_time : Z;
  drone_id : string
}.

(** The sort key [lambda wp: wp.timestamp]; the sort is only run when every
    waypoint carries a timestamp, so the [None] case is never used. *)
Definition ts_key (wp : Waypoint) : Z :=
  match timestamp wp with Some t => t | None => 0%Z end.

(** [list.sort] is stable: an element is placed before the later elements
    whose key is equal to its own.  Insertion sort from the right gives the
    same order. *)
Fixpoint insert_by_ts (w : Waypoint) (l : list Waypoint) : list Waypoint :=
  match l with
  | [] => [w]
  | h :: t => if (ts_key w <=? ts_key h)%Z then w :: h :: t else h :: insert_by_ts w t
  end.

Fixpoint sort_by_ts (l : list Waypoint) : list Waypoint :=
  match l with
  | [] => []
  | h :: t => insert_by_ts h (sort_by_ts t)
  end.

Definition has_timestamp (wp : Waypoint) : bool :=
  match timestamp wp with Some _ => true | None => false end.

(** [not (self.start_time <= wp.timestamp <= self.end_time)] is checked for
    every timestamped waypoint. *)
Definition in_window (s e : Z) (wp : Waypoint) : bool :=
  match timestamp wp with
  | Some t => (s <=? t)%Z && (t <=? e)%Z
  | None => true
  end.

(** [Mission.__post_init__] *)
Definition Mission_new (wps : list Waypoint) (s e : Z) (id : string)
  : result Mission :=
  match wps with
  | [] => Err (ValueError "Mission must have at least one waypoint")
  | _ =>
    if (e <=? s)%Z then Err (ValueError "End time must be after start time")
    else
      let wps' := if forallb has_timestamp wps then sort_by_ts wps else wps in
      if forallb (in_window s e) wps' then Ok (mkMission wps' s e id)
      else Err (ValueError "Waypoint timestamp must be within mission time window")
  end.

(** ** conflict/conflict_detector.py *)

(** [@dataclass class Conflict] (without [description]). *)
Record Conflict := mkConflict {
  location : R * R;
  time : R;
  primary_drone : string;
  conflicting_drone : string;
  distance : R
}.

(** Python's [<] and [-] on [Optional[datetime]]: [None] raises. *)
Definition ts_lt (a b : option Z) : result bool :=
  match a, b with
  | Some a, Some b => Ok (a <? b)%Z
  | _, _ => Err TypeError
  end.

Definition ts_sub (a b : option Z) : result Z :=
  match a, b with
  | Some a, Some b => Ok (a - b)%Z
  | _, _ => Err TypeError
  end.

(** [_check_temporal_overlap]: [not (A or B)] with the short circuit of [or]. *)
Definition check_temporal_overlap (wp1_start wp1_end wp2_start wp2_end : Waypoint)
  : result bool :=
  let* c1 := ts_lt (timestamp wp1_end) (timestamp wp2_start) in
  if c1 then Ok false
  else
    let* c2 := ts_lt (timestamp wp2_end) (timestamp wp1_start) in
    Ok (negb c2).

Definition denominator (p1 p2 p3 p4 : Waypoint) : R :=
  (x p1 - x p2) * (y p3 - y p4) - (y p1 - y p2) * (x p3 - x p4).

(** [_find_intersection] *)
Definition find_intersection (wp1_start wp1_end wp2_start wp2_end : Waypoint)
  : option (R * R) :=
  let p1 := wp1_start in let p2 := wp1_end in
  let p3 := wp2_start in let p4 := wp2_end in
  let den := denominator p1 p2 p3 p4 in
  if Reqb den 0 then None
  else
    let t := ((x p1 - x p3) * (y p3 - y p4) - (y p1 - y p3) * (x p3 - x p4)) / den in
    let u := - ((x p1 - x p2) * (y p1 - y p3) - (y p1 - y p2) * (x p1 - x p3)) / den in
    if Rleb 0 t && Rleb t 1 && Rleb 0 u && Rleb u 1 then
      Some (x p1 + t * (x p2 - x p1), y p1 + t * (y p2 - y p1))
    else None.

(** [total_dist1] of [_calculate_conflict_time]. *)
Definition segment_length (a b : Waypoint) : R :=
  sqrt ((x b - x a) ^ 2 + (y b - y a) ^ 2).

(** [_calculate_conflict_time] *)
Definition calculate_conflict_time (wp1_start wp1_end wp2_start wp2_end : Waypoint)
  (intersection : R * R) : result R :=
  let total_dist1 := segment_length wp1_start wp1_end in
  let dist_to_conflict1 :=
    sqrt ((fst intersection - x wp1_start) ^ 2 + (snd intersection - y wp1_start) ^ 2) in
  let time_ratio1 := if Rltb 0 total_dist1 then dist_to_conflict1 / total_dist1 else 0 in
  let* time_diff1 := ts_sub (timestamp wp1_end) (timestamp wp1_start) in
  match timestamp wp1_start with
  | Some t0 => Ok (IZR t0 + time_ratio1 * IZR time_diff1)
  | None => Err TypeError
  end.

(** [_calculate_distance]: the [point] argument is unused. *)
Definition calculate_distance (wp1 wp2 : Waypoint) (point : R * R) : R :=
  sqrt ((x wp1 - x wp2) ^ 2 + (y wp1 - y wp2) ^ 2).

(** The geometric and safety-distance stages of the inner loop of
    [_check_mission_pair], run once the time windows overlap.
    [if conflict_point:] and [if conflict_time:] always hold in Python for a
    2-tuple and a datetime. *)
Definition check_spatial (safety_buffer : R) (id1 id2 : string)
  (wp1_start wp1_end wp2_start wp2_end : Waypoint) : result (option Conflict) :=
  match find_intersection wp1_start wp1_end wp2_start wp2_end with
  | None => Ok None
  | Some conflict_point =>
    let* conflict_time :=
      calculate_conflict_time wp1_start wp1_end wp2_start wp2_end conflict_point in
    let d := calculate_distance wp1_start wp2_start conflict_point in
    if Rltb d safety_buffer then
      Ok (Some (mkConflict conflict_point conflict_time id1 id2 d))
    else Ok None
  end.

(** The body of the inner loop of [_check_mission_pair], for one pair of
    segments; [Ok (Some c)] appends [c]. *)
Definition check_segment_pair (safety_buffer : R) (id1 id2 : string)
  (wp1_start wp1_end wp2_start wp2_end : Waypoint) : result (option Conflict) :=
  let* ov := check_temporal_overlap wp1_start wp1_end wp2_start wp2_end in
  if ov then check_spatial safety_buffer id1 id2 wp1_start wp1_end wp2_start wp2_end
  else Ok None.

(** [(waypoints[i], waypoints[i+1]) for i in range(len(waypoints) - 1)] *)
Fixpoint segments (l : list Waypoint) : list (Waypoint * Waypoint) :=
  match l with
  | a :: ((b :: _) as rest) => (a, b) :: segments rest
  | _ => []
  end.

Definition option_to_list {A} (o : option A) : list A :=
  match o with Some a => [a] | None => [] end.

(** The inner loop over [j]. *)
Fixpoint check_inner (safety_buffer : R) (id1 id2 : string) (a0 a1 : Waypoint)
  (segs2 : list (Waypoint * Waypoint)) : result (list Conflict) :=
  match segs2 with
  | [] => Ok []
  | (b0, b1) :: rest =>
    let* oc := check_segment_pair safety_buffer id1 id2 a0 a1 b0 b1 in
    let* cs := check_inner safety_buffer id1 id2 a0 a1 rest in
    Ok (option_to_list oc ++ cs)
  end.

(** The outer loop over [i]. *)
Fixpoint check_outer (safety_buffer : R) (id1 id2 : string)
  (segs1 segs2 : list (Waypoint * Waypoint)) : result (list Conflict) :=
  match segs1 with
  | [] => Ok []
  | (a0, a1) :: rest =>
    let* cs1 := check_inner safety_buffer id1 id2 a0 a1 segs2 in
    let* cs2 := check_outer safety_buffer id1 id2 rest segs2 in
    Ok (cs1 ++ cs2)
  end.

(** [_check_mission_pair] *)
Definition check_mission_pair (safety_buffer : R) (mission1 mission2 : Mission)
  : result (list Conflict) :=
  check_outer safety_buffer (drone_id mission1) (drone_id mission2)
    (segments (waypoints mission1)) (segments (waypoints mission2)).

(** The loop of [check_mission] over [other_missions]. *)
Fixpoint check_others (safety_buffer : R) (primary : Mission) (others : list Mission)
  : result (list Conflict) :=
  match others with
  | [] => Ok []
  | m :: rest =>
    let* cs1 := check_mission_pair safety_buffer primary m in
    let* cs2 := check_others safety_buffer primary rest in
    Ok (cs1 ++ cs2)
  end.

(** [check_mission] *)
Definition check_mission (safety_buffer : R) (primary_mission : Mission)
  (other_missions : list Mission) : result (string * list Conflict) :=
  let* conflicts := check_others safety_buffer primary_mission other_missions in
  match conflicts with
  | [] => Ok ("clear"%string, [])
  | _ => Ok ("conflict detected"%string, conflicts)
  end.

(** ** data/data_loader.py *)

(** [_divide_and_round(a, b)] of Python's [datetime] module, which
    [timedelta / int] uses on the microseconds of the timedelta: the
    quotient rounded to the nearest integer, ties to even.  [divmod] by 0
    raises [ZeroDivisionError]; the caller below checks it. *)
Definition divide_and_round (a b : Z) : Z :=
  let q := (a / b)%Z in
  let r := (2 * (a mod b))%Z in
  let greater_than_half := if (0 <? b)%Z then (b <? r)%Z else (r <? b)%Z in
  if greater_than_half || ((r =? b)%Z && (q mod 2 =? 1)%Z) then (q + 1)%Z else q.

(** The exceptions of the generator: [timedelta / 0] raises
    [ZeroDivisionError]; [Waypoint] and [Mission] raise [exn]. *)
Inductive gen_exn :=
| ZeroDivisionError
| Raised (e : exn).

Definition lift {A} (r : result A) : gen_exn + A :=
  match r with Ok a => inr a | Err e => inl (Raised e) end.

Definition gen_bind {A B} (m : gen_exn + A) (k : A -> gen_exn + B) : gen_exn + B :=
  match m with inl e => inl e | inr a => k a end.

Notation "'let+' x ':=' m 'in' k" := (gen_bind m (fun x => k))
  (at level 200, x name, m at level 100, k at level 200).

(** The three values [random.random()] returns for one waypoint, each in
    [[0, 1)]; [random.uniform(a, b)] is [a + (b - a) * random.random()]. *)
Record Draw := mkDraw { draw_x : R; draw_y : R; draw_z : R }.

Definition uniform (a b u : R) : R := a + (b - a) * u.

(** The loop [for i in range(num_waypoints)]; [draw i] are the random values
    drawn for waypoint [i], timestamps are [start_time + time_step * i]. *)
Fixpoint generate_waypoints (draw : Z -> Draw) (start_time time_step : Z)
  (area_size min_altitude max_altitude : R) (i : Z) (k : nat)
  : gen_exn + list Waypoint :=
  match k with
  | O => inr []
  | S k' =>
    let d := draw i in
    let+ w := lift (Waypoint_new (uniform 0 area_size (draw_x d))
                                 (uniform 0 area_size (draw_y d))
                                 (Some (uniform min_altitude max_altitude (draw_z d)))
                                 (Some (start_time + time_step * i)%Z)) in
    let+ ws := generate_waypoints draw start_time time_step
                 area_size min_altitude max_altitude (i + 1) k' in
    inr (w :: ws)
  end.

(** [DataLoader._generate_drone_mission]; times and durations in
    microseconds.  The range limits of [datetime] and [timedelta]
    ([OverflowError]) are not modelled. *)
Definition generate_drone_mission (drone_id : string) (start_time duration : Z)
  (area_size min_altitude max_altitude : R) (num_waypoints : Z) (draw : Z -> Draw)
  : gen_exn + Mission :=
  let end_time := (start_time + duration)%Z in
  if (num_waypoints - 1 =? 0)%Z then inl ZeroDivisionError
  else
    let time_step := divide_and_round duration (num_waypoints - 1) in
    let+ waypoints := generate_waypoints draw start_time time_step
                        area_size min_altitude max_altitude 0 (Z.to_nat num_waypoints) in
    lift (Mission_new waypoints start_time end_time drone_id).

(** [range(i, i + k)]. *)
Fixpoint zseq (i : Z) (k : nat) : list Z :=
  match k with O => [] | S k' => i :: zseq (i + 1) k' end.

(** The waypoint the generator builds for index [i] when nothing raises. *)
Definition generated_waypoint (draw : Z -> Draw) (start_time time_step : Z)
  (area_size min_altitude max_altitude : R) (i : Z) : Waypoint :=
  mkWaypoint (uniform 0 area_size (draw_x (draw i)))
             (uniform 0 area_size (draw_y (draw i)))
             (Some (uniform min_altitude max_altitude (draw_z (draw i))))
             (Some (start_time + time_step * i)%Z).

Definition draw_ok (d : Draw) : Prop :=
  0 <= draw_x d < 1 /\ 0 <= draw_y d < 1 /\ 0 <= draw_z d < 1.

(** [str(n)] for [n >= 0]. *)
Fixpoint digits_aux (fuel : nat) (n : Z) (acc : string) : string :=
  match fuel with
  | O => acc
  | S f =>
    let acc' := String (Ascii.ascii_of_nat (48 + Z.to_nat (n mod 10))) acc in
    if (n <? 10)%Z then acc' else digits_aux f (n / 10) acc'
  end.

Definition str_of_nonneg (n : Z) : string := digits_aux (S (Z.to_nat n)) n EmptyString.

(** The loop [for i in range(num_traffic_drones)] of
    [DataLoader.generate_mission_data], from index [i] on, [k] iterations;
    the draws of mission [j] are [draw j] (the primary mission is [0]). *)
Fixpoint generate_traffic (draw : Z -> Z -> Draw) (num_waypoints : Z)
  (area_size min_altitude max_altitude : R) (mission_duration time_buffer now : Z)
  (i : Z) (k : nat) : gen_exn + list Mission :=
  match k with
  | O => inr []
  | S k' =>
    let start_time := (now + time_buffer * (i + 1))%Z in
    let+ mission := generate_drone_mission
                      ("traffic_drone_" ++ str_of_nonneg (i + 1))%string
                      start_time mission_duration area_size min_altitude max_altitude
                      num_waypoints (draw (i + 1)%Z) in
    let+ rest := generate_traffic draw num_waypoints area_size min_altitude max_altitude
                   mission_duration time_buffer now (i + 1) k' in
    inr (mission :: rest)
  end.

(** [DataLoader.generate_mission_data], with [now = datetime.now()] as an
    argument; the result dictionary is the pair ([primary], [others]). *)
Definition generate_mission_data (num_traffic_drones waypoints_per_drone : Z)
  (area_size min_altitude max_altitude : R) (mission_duration time_buffer now : Z)
  (draw : Z -> Z -> Draw) : gen_exn + (Mission * list Mission) :=
  let+ primary_mission := generate_drone_mission "primary_drone" now mission_duration
                            area_size min_altitude max_altitude waypoints_per_drone
                            (draw 0%Z) in
  let+ other_missions := generate_traffic draw waypoints_per_drone area_size
                           min_altitude max_altitude mission_duration time_buffer now
                           0 (Z.to_nat num_traffic_drones) in
  inr (primary_mission, other_missions).


(** ** IEEE 754 binary64 model of the detector

    Python floats and numpy [float64] values are IEEE 754 binary64 numbers
    with round-to-nearest-even; they are modelled by the standard library's
    [spec_float] and its operations (the binary64 instance of Flocq's
    specification: precision 53, exponent of the infinities 1024).  Only the
    operations themselves are rounded; numpy's overflow and invalid
    operations give infinities and NaN without raising, while Python's
    [float ** 2] raises [OverflowError] when the square overflows.
    [datetime] values are naive here, as [Z] microseconds since
    [datetime.min] (0001-01-01 00:00), so that the range checks of
    [datetime + timedelta] can be written out. *)
Module Binary64.
Import SpecFloat.

Inductive exn :=
| TypeError
| ValueError (msg : string)
| OverflowError (msg : string).

Inductive result (A : Type) :=
| Ok (a : A)
| Err (e : exn).
Arguments Ok {A} a.
Arguments Err {A} e.

Definition bind {A B} (m : result A) (k : A -> result B) : result B :=
  match m with
  | Ok a => k a
  | Err e => Err e
  end.

#[local] Notation "'let*' x ':=' m 'in' k" := (bind m (fun x => k))
  (at level 200, x name, m at level 100, k at level 200).

Definition float := spec_float.
Definition prec : Z := 53.
Definition emax : Z := 1024.

Definition add (a b : float) : float := SFadd prec emax a b.
Definition sub (a b : float) : float := SFsub prec emax a b.
Definition mul (a b : float) : float := SFmul prec emax a b.
Definition div (a b : float) : float := SFdiv prec emax a b.
Definition sqrt (a : float) : float := SFsqrt prec emax a.
Definition opp (a : float) : float := SFopp a.
Definition abs (a : float) : float := SFabs a.
Definition eqb (a b : float) : bool := SFeqb a b.
Definition ltb (a b : float) : bool := SFltb a b.
Definition leb (a b : float) : bool := SFleb a b.

Definition zero : float := S754_zero false.

(** The binary64 number nearest to [n / d] ([d > 0]), ties to even: Python's
    [int / int], and its parsing of a decimal literal. *)
Definition of_ratio (n d : Z) : float :=
  match n with
  | Z0 => zero
  | _ =>
    let '(q, e, l) := SFdiv_core_binary prec emax (Z.abs n) 0 d 0 in
    binary_round_aux prec emax (n <? 0)%Z q e l
  end.

Definition of_Z (n : Z) : float := of_ratio n 1.

(** The literal [m]e[k]. *)
Definition dec (m k : Z) : float :=
  if (0 <=? k)%Z then of_ratio (m * 10 ^ k) 1 else of_ratio m (10 ^ (- k)).

Definition one : float := of_Z 1.

(** C's [modf] on a finite number or a zero: the integral part, truncated
    towards zero, and the fractional part with the sign of the argument. *)
Definition modf (v : float) : Z * float :=
  match v with
  | S754_finite s m e =>
    if (0 <=? e)%Z then (cond_Zopp s (Zpos m * 2 ^ e), S754_zero s)
    else
      let q := (Zpos m / 2 ^ (- e))%Z in
      let r := (Zpos m mod 2 ^ (- e))%Z in
      (cond_Zopp s q,
       if (r =? 0)%Z then S754_zero s else binary_normalize prec emax (cond_Zopp s r) e s)
  | _ => (0%Z, v)
  end.

(** C's [round]: to the nearest integer, halfway cases away from zero. *)
Definition c_round (v : float) : float :=
  match v with
  | S754_finite s m e =>
    if (0 <=? e)%Z then v
    else
      let q := (Zpos m / 2 ^ (- e))%Z in
      let r := (Zpos m mod 2 ^ (- e))%Z in
      let q' := if (2 ^ (- e) <=? 2 * r)%Z then (q + 1)%Z else q in
      if (q' =? 0)%Z then S754_zero s else binary_normalize prec emax (cond_Zopp s q') 0 s
  | _ => v
  end.

(** Python's [float ** 2]: [pow(v, 2.0)], i.e. the rounded square, with
    [OverflowError] when a finite argument gives an infinite result. *)
Definition pow2 (v : float) : result float :=
  let r := mul v v in
  match v, r with
  | S754_finite _ _ _, S754_infinity _ => Err (OverflowError "Numerical result out of range")
  | _, _ => Ok r
  end.

(** [datetime.max] in microseconds since [datetime.min]. *)
Definition max_datetime : Z := (3652059 * 86400 * 1000000 - 1)%Z.

(** A [timedelta] as its number of microseconds; its constructor keeps the
    days within [-999999999, 999999999]. *)
Definition timedelta_of_us (us : Z) : result Z :=
  if (Z.abs (us / (86400 * 1000000)) <=? 999999999)%Z then Ok us
  else Err (OverflowError "days must have magnitude <= 999999999").

(** [timedelta(seconds=s)] for a float [s] ([delta_new] and [accum] of
    CPython's [_datetimemodule.c]): the integral part of [s] is converted
    exactly, the fractional part scaled by [1e6] is split again, and the
    leftover fraction of a microsecond is rounded half to even. *)
Definition timedelta_seconds (s : float) : result Z :=
  match s with
  | S754_nan => Err (ValueError "cannot convert float NaN to integer")
  | S754_infinity _ => Err (OverflowError "cannot convert float infinity to integer")
  | _ =>
    let '(intpart, fracpart) := modf s in
    let sum := (intpart * 1000000)%Z in
    if eqb fracpart zero then timedelta_of_us sum
    else
      let '(intpart2, fracpart2) := modf (mul (of_Z 1000000) fracpart) in
      let x0 := (sum + intpart2)%Z in
      let leftover_us := add zero fracpart2 in
      if eqb leftover_us zero then timedelta_of_us x0
      else
        let whole_us := c_round leftover_us in
        let whole_us :=
          if eqb (abs (sub whole_us leftover_us)) (dec 5 (-1)) then
            let x_is_odd := of_Z (x0 mod 2) in
            sub (mul (of_Z 2) (c_round (mul (add leftover_us x_is_odd) (dec 5 (-1)))))
                x_is_odd
          else whole_us in
        timedelta_of_us (x0 + fst (modf whole_us))%Z
  end.

(** [timedelta.total_seconds()]: microseconds divided by [10**6]. *)
Definition total_seconds (us : Z) : float := of_ratio us 1000000.

(** [datetime + timedelta], which raises [OverflowError] outside the range
    of [datetime]. *)
Definition datetime_add (d td : Z) : result Z :=
  if (0 <=? d + td)%Z && (d + td <=? max_datetime)%Z then Ok (d + td)%Z
  else Err (OverflowError "date value out of range").

(** *** models/mission.py *)

Record Waypoint := mkWaypoint {
  x : float;
  y : float;
  z : option float;
  timestamp : option Z
}.

Definition Waypoint_new (x0 y0 : float) (z0 : option float) (ts : option Z)
  : result Waypoint :=
  if ltb x0 zero || ltb y0 zero then Err (ValueError "Coordinates cannot be negative")
  else match z0 with
       | Some zz => if ltb zz zero then Err (ValueError "Altitude cannot be negative")
                    else Ok (mkWaypoint x0 y0 z0 ts)
       | None => Ok (mkWaypoint x0 y0 z0 ts)
       end.

Record Mission := mkMission {
  waypoints : list Waypoint;
  start_time : Z;
  end_time : Z;
  drone_id : string
}.

Definition ts_key (wp : Waypoint) : Z :=
  match timestamp wp with Some t => t | None => 0%Z end.

Fixpoint insert_by_ts (w : Waypoint) (l : list Waypoint) : list Waypoint :=
  match l with
  | [] => [w]
  | h :: t => if (ts_key w <=? ts_key h)%Z then w :: h :: t else h :: insert_by_ts w t
  end.

Fixpoint sort_by_ts (l : list Waypoint) : list Waypoint :=
  match l with
  | [] => []
  | h :: t => insert_by_ts h (sort_by_ts t)
  end.

Definition has_timestamp (wp : Waypoint) : bool :=
  match timestamp wp with Some _ => true | None => false end.

Definition in_window (s e : Z) (wp : Waypoint) : bool :=
  match timestamp wp with
  | Some t => (s <=? t)%Z && (t <=? e)%Z
  | None => true
  end.

Definition Mission_new (wps : list Waypoint) (s e : Z) (id : string)
  : result Mission :=
  match wps with
  | [] => Err (ValueError "Mission must have at least one waypoint")
  | _ =>
    if (e <=? s)%Z then Err (ValueError "End time must be after start time")
    else
      let wps' := if forallb has_timestamp wps then sort_by_ts wps else wps in
      if forallb (in_window s e) wps' then Ok (mkMission wps' s e id)
      else Err (ValueError "Waypoint timestamp must be within mission time window")
  end.

(** *** conflict/conflict_detector.py *)

Record Conflict := mkConflict {
  location : float * float;
  time : Z;
  primary_drone : string;
  conflicting_drone : string;
  distance : float
}.

Definition ts_lt (a b : option Z) : result bool :=
  match a, b with
  | Some a, Some b => Ok (a <? b)%Z
  | _, _ => Err TypeError
  end.

Definition ts_sub (a b : option Z) : result Z :=
  match a, b with
  | Some a, Some b => Ok (a - b)%Z
  | _, _ => Err TypeError
  end.

Definition check_temporal_overlap (wp1_start wp1_end wp2_start wp2_end : Waypoint)
  : result bool :=
  let* c1 := ts_lt (timestamp wp1_end) (timestamp wp2_start) in
  if c1 then Ok false
  else
    let* c2 := ts_lt (timestamp wp2_end) (timestamp wp1_start) in
    Ok (negb c2).

Definition denominator (p1 p2 p3 p4 : Waypoint) : float :=
  sub (mul (sub (x p1) (x p2)) (sub (y p3) (y p4)))
      (mul (sub (y p1) (y p2)) (sub (x p3) (x p4))).

(** [_find_intersection], in numpy [float64] arithmetic. *)
Definition find_intersection (wp1_start wp1_end wp2_start wp2_end : Waypoint)
  : option (float * float) :=
  let p1 := wp1_start in let p2 := wp1_end in
  let p3 := wp2_start in let p4 := wp2_end in
  let den := denominator p1 p2 p3 p4 in
  if eqb den zero then None
  else
    let t := div (sub (mul (sub (x p1) (x p3)) (sub (y p3) (y p4)))
                      (mul (sub (y p1) (y p3)) (sub (x p3) (x p4)))) den in
    let u := div (opp (sub (mul (sub (x p1) (x p2)) (sub (y p1) (y p3)))
                           (mul (sub (y p1) (y p2)) (sub (x p1) (x p3))))) den in
    if leb zero t && leb t one && leb zero u && leb u one then
      Some (add (x p1) (mul t (sub (x p2) (x p1))), add (y p1) (mul t (sub (y p2) (y p1))))
    else None.

(** [total_dist1] of [_calculate_conflict_time]. *)
Definition segment_length (a b : Waypoint) : result float :=
  let* dx := pow2 (sub (x b) (x a)) in
  let* dy := pow2 (sub (y b) (y a)) in
  Ok (sqrt (add dx dy)).

(** [_calculate_conflict_time]; [time_ratio1] is the integer [0] when
    [total_dist1 > 0] fails, and [0 * time_diff1] is a float product. *)
Definition calculate_conflict_time (wp1_start wp1_end wp2_start wp2_end : Waypoint)
  (intersection : float * float) : result Z :=
  let* total_dist1 := segment_length wp1_start wp1_end in
  let* cx := pow2 (sub (fst intersection) (x wp1_start)) in
  let* cy := pow2 (sub (snd intersection) (y wp1_start)) in
  let dist_to_conflict1 := sqrt (add cx cy) in
  let time_ratio1 := if ltb zero total_dist1 then div dist_to_conflict1 total_dist1
                     else zero in
  let* diff := ts_sub (timestamp wp1_end) (timestamp wp1_start) in
  let time_diff1 := total_seconds diff in
  let* td := timedelta_seconds (mul time_ratio1 time_diff1) in
  match timestamp wp1_start with
  | Some t0 => datetime_add t0 td
  | None => Err TypeError
  end.

Definition calculate_distance (wp1 wp2 : Waypoint) (point : float * float) : result float :=
  let* dx := pow2 (sub (x wp1) (x wp2)) in
  let* dy := pow2 (sub (y wp1) (y wp2)) in
  Ok (sqrt (add dx dy)).

Definition check_segment_pair (safety_buffer : float) (id1 id2 : string)
  (wp1_start wp1_end wp2_start wp2_end : Waypoint) : result (option Conflict) :=
  let* ov := check_temporal_overlap wp1_start wp1_end wp2_start wp2_end in
  if ov then
    match find_intersection wp1_start wp1_end wp2_start wp2_end with
    | None => Ok None
    | Some conflict_point =>
      let* conflict_time :=
        calculate_conflict_time wp1_start wp1_end wp2_start wp2_end conflict_point in
      let* d := calculate_distance wp1_start wp2_start conflict_point in
      if ltb d safety_buffer then
        Ok (Some (mkConflict conflict_point conflict_time id1 id2 d))
      else Ok None
    end
  else Ok None.

Fixpoint segments (l : list Waypoint) : list (Waypoint * Waypoint) :=
  match l with
  | a :: ((b :: _) as rest) => (a, b) :: segments rest
  | _ => []
  end.

Definition option_to_list {A} (o : option A) : list A :=
  match o with Some a => [a] | None => [] end.

Fixpoint check_inner (safety_buffer : float) (id1 id2 : string) (a0 a1 : Waypoint)
  (segs2 : list (Waypoint * Waypoint)) : result (list Conflict) :=
  match segs2 with
  | [] => Ok []
  | (b0, b1) :: rest =>
    let* oc := check_segment_pair safety_buffer id1 id2 a0 a1 b0 b1 in
    let* cs := check_inner safety_buffer id1 id2 a0 a1 rest in
    Ok (option_to_list oc ++ cs)
  end.

Fixpoint check_outer (safety_buffer : float) (id1 id2 : string)
  (segs1 segs2 : list (Waypoint * Waypoint)) : result (list Conflict) :=
  match segs1 with
  | [] => Ok []
  | (a0, a1) :: rest =>
    let* cs1 := check_inner safety_buffer id1 id2 a0 a1 segs2 in
    let* cs2 := check_outer safety_buffer id1 id2 rest segs2 in
    Ok (cs1 ++ cs2)
  end.

Definition check_mission_pair (safety_buffer : float) (mission1 mission2 : Mission)
  : result (list Conflict) :=
  check_outer safety_buffer (drone_id mission1) (drone_id mission2)
    (segments (waypoints mission1)) (segments (waypoints mission2)).

Fixpoint check_others (safety_buffer : float) (primary : Mission) (others : list Mission)
  : result (list Conflict) :=
  match others with
  | [] => Ok []
  | m :: rest =>
    let* cs1 := check_mission_pair safety_buffer primary m in
    let* cs2 := check_others safety_buffer primary rest in
    Ok (cs1 ++ cs2)
  end.

Definition check_mission (safety_buffer : float) (primary_mission : Mission)
  (other_missions : list Mission) : result (string * list Conflict) :=
  let* conflicts := check_others safety_buffer primary_mission other_missions in
  match conflicts with
  | [] => Ok ("clear"%string, [])
  | _ => Ok ("conflict detected"%string, conflicts)
  end.

(** A segment whose two waypoints have equal [x] and equal [y] ([==]). *)
Definition zero_length (a b : Waypoint) : bool := eqb (x a) (x b) && eqb (y a) (y b).

Definition zero_or_nan (f : float) : bool :=
  match f with S754_zero _ | S754_nan => true | _ => false end.

End Binary64.

(** ** Scenarios *)

(** A time of day [h:m:s] in microseconds. *)
Definition hms (h m s : Z) : Z := (((h * 60 + m) * 60 + s) * 1000000)%Z.

Definition wp (x0 y0 : R) (t : Z) : Waypoint := mkWaypoint x0 y0 None (Some t).

(** Head-on: [(0,100)@10:00 -> (200,100)@10:10] against
    [(200,100)@10:00 -> (0,100)@10:10]. *)
Definition head_on_primary : Mission :=
  mkMission [wp 0 100 (hms 10 0 0); wp 200 100 (hms 10 10 0)]
            (hms 10 0 0) (hms 10 10 0) "primary".
Definition head_on_other : Mission :=
  mkMission [wp 200 100 (hms 10 0 0); wp 0 100 (hms 10 10 0)]
            (hms 10 0 0) (hms 10 10 0) "other".

(** Parallel paths: [(0,0)@10:00 -> (200,0)@10:10] against
    [(0,100)@10:00 -> (200,100)@10:10]. *)
Definition parallel_primary : Mission :=
  mkMission [wp 0 0 (hms 10 0 0); wp 200 0 (hms 10 10 0)]
            (hms 10 0 0) (hms 10 10 0) "primary".
Definition parallel_other : Mission :=
  mkMission [wp 0 100 (hms 10 0 0); wp 200 100 (hms 10 10 0)]
            (hms 10 0 0) (hms 10 10 0) "other".

(** Crossing: [(0,0)@0:00 -> (10,10)@0:10] against
    [(0,10)@0:00 -> (10,0)@0:10]; the segments cross at [(5,5)]. *)
Definition cross_primary : Mission :=
  mkMission [wp 0 0 (hms 0 0 0); wp 10 10 (hms 0 10 0)]
            (hms 0 0 0) (hms 0 10 0) "primary".
Definition cross_other : Mission :=
  mkMission [wp 0 10 (hms 0 0 0); wp 10 0 (hms 0 10 0)]
            (hms 0 0 0) (hms 0 10 0) "other".

(** Waypoints without timestamps. *)
Definition untimed_wps : list Waypoint :=
  [mkWaypoint 0 0 None None; mkWaypoint 10 10 None None].

(** A primary segment from (0, 1) to (1e-200, 1), of positive length, and
    an other segment from (5e-201, 2) to (5e-201, 0), both flown between
    00:00 and 00:10, in the binary64 model. *)
Definition underflow_a0 : Binary64.Waypoint :=
  Binary64.mkWaypoint Binary64.zero Binary64.one None (Some (hms 0 0 0)).
Definition underflow_a1 : Binary64.Waypoint :=
  Binary64.mkWaypoint (Binary64.dec 1 (-200)) Binary64.one None (Some (hms 0 10 0)).
Definition underflow_b0 : Binary64.Waypoint :=
  Binary64.mkWaypoint (Binary64.dec 5 (-201)) (Binary64.of_Z 2) None (Some (hms 0 0 0)).
Definition underflow_b1 : Binary64.Waypoint :=
  Binary64.mkWaypoint (Binary64.dec 5 (-201)) Binary64.zero None (Some (hms 0 10 0)).
Definition underflow_conflict : Binary64.Conflict :=
  Binary64.mkConflict (Binary64.dec 5 (-201), Binary64.one) (hms 0 0 0)
    "primary" "other" Binary64.one.

(** ** General lemmas *)

Lemma bind_Ok {A B} (m : result A) (k : A -> result B) (b : B) :
  bind m k = Ok b -> exists a, m = Ok a /\ k a = Ok b.
Proof. destruct m as [a|e]; simpl; [eauto | discriminate]. Qed.

Lemma Rltb_true x0 y0 : Rltb x0 y0 = true <-> x0 < y0.
Proof. unfold Rltb; destruct (Rlt_dec x0 y0); split; intros; (congruence || lra). Qed.

Lemma Rltb_false x0 y0 : Rltb x0 y0 = false <-> y0 <= x0.
Proof. unfold Rltb; destruct (Rlt_dec x0 y0); split; intros; (congruence || lra). Qed.

Lemma Reqb_true x0 y0 : Reqb x0 y0 = true <-> x0 = y0.
Proof. unfold Reqb; destruct (Req_EM_T x0 y0); split; intros; congruence. Qed.

Lemma find_intersection_denominator_zero p1 p2 p3 p4 :
  denominator p1 p2 p3 p4 = 0 -> find_intersection p1 p2 p3 p4 = None.
Proof.
  intro H. unfold find_intersection. cbv zeta.
  replace (Reqb (denominator p1 p2 p3 p4) 0) with true
    by (symmetry; apply Reqb_true; exact H).
  reflexivity.
Qed.

Lemma check_segment_pair_no_intersection buf id1 id2 a0 a1 b0 b1 oc :
  find_intersection a0 a1 b0 b1 = None ->
  check_segment_pair buf id1 id2 a0 a1 b0 b1 = Ok oc -> oc = None.
Proof.
  intros Hf H. unfold check_segment_pair, check_spatial in H.
  destruct (check_temporal_overlap a0 a1 b0 b1) as [[|]|e]; simpl in H.
  - rewrite Hf in H. congruence.
  - congruence.
  - discriminate.
Qed.

Lemma check_segment_pair_Some buf id1 id2 a0 a1 b0 b1 c :
  check_segment_pair buf id1 id2 a0 a1 b0 b1 = Ok (Some c) ->
  check_temporal_overlap a0 a1 b0 b1 = Ok true /\
  exists p t,
    find_intersection a0 a1 b0 b1 = Some p /\
    calculate_conflict_time a0 a1 b0 b1 p = Ok t /\
    calculate_distance a0 b0 p < buf /\
    c = mkConflict p t id1 id2 (calculate_distance a0 b0 p).
Proof.
  intro H. unfold check_segment_pair, check_spatial in H.
  apply bind_Ok in H as [ov [Hov H]].
  destruct ov; [|discriminate].
  split; [exact Hov|].
  destruct (find_intersection a0 a1 b0 b1) as [p|]; [|discriminate].
  apply bind_Ok in H as [t [Ht H]].
  destruct (Rltb (calculate_distance a0 b0 p) buf) eqn:Hd; [|discriminate].
  apply Rltb_true in Hd.
  exists p, t. repeat split; auto. congruence.
Qed.

(** A single pair of one-segment missions. *)
Lemma check_mission_single_segments buf p o a0 a1 b0 b1 :
  waypoints p = [a0; a1] -> waypoints o = [b0; b1] ->
  check_mission buf p [o] =
  let* oc := check_segment_pair buf (drone_id p) (drone_id o) a0 a1 b0 b1 in
  match oc with
  | None => Ok ("clear"%string, [])
  | Some c => Ok ("conflict detected"%string, [c])
  end.
Proof.
  intros Hp Ho. unfold check_mission, check_others, check_mission_pair.
  rewrite Hp, Ho. cbn -[check_segment_pair].
  destruct (check_segment_pair buf (drone_id p) (drone_id o) a0 a1 b0 b1) as [[c|]|e];
    reflexivity.
Qed.

Lemma head_on_denominator :
  denominator (wp 0 100 (hms 10 0 0)) (wp 200 100 (hms 10 10 0))
              (wp 200 100 (hms 10 0 0)) (wp 0 100 (hms 10 10 0)) = 0.
Proof. unfold denominator; simpl; ring. Qed.

Lemma head_on_result :
  check_mission 50 head_on_primary [head_on_other] = Ok ("clear"%string, []).
Proof.
  rewrite (check_mission_single_segments _ _ _
             (wp 0 100 (hms 10 0 0)) (wp 200 100 (hms 10 10 0))
             (wp 200 100 (hms 10 0 0)) (wp 0 100 (hms 10 10 0))) by reflexivity.
  unfold check_segment_pair, check_spatial.
  rewrite (find_intersection_denominator_zero _ _ _ _ head_on_denominator).
  reflexivity.
Qed.

Lemma head_on_start_distance :
  calculate_distance (wp 0 100 (hms 10 0 0)) (wp 200 100 (hms 10 0 0)) (0, 0) = 200.
Proof.
  unfold calculate_distance; simpl.
  replace ((0 - 200) * ((0 - 200) * 1) + (100 - 100) * ((100 - 100) * 1)) with (200 * 200)
    by ring.
  apply sqrt_square. lra.
Qed.

Lemma parallel_denominator :
  denominator (wp 0 0 (hms 10 0 0)) (wp 200 0 (hms 10 10 0))
              (wp 0 100 (hms 10 0 0)) (wp 200 100 (hms 10 10 0)) = 0.
Proof. unfold denominator; simpl; ring. Qed.

Lemma parallel_result buf :
  check_mission buf parallel_primary [parallel_other] = Ok ("clear"%string, []).
Proof.
  rewrite (check_mission_single_segments _ _ _
             (wp 0 0 (hms 10 0 0)) (wp 200 0 (hms 10 10 0))
             (wp 0 100 (hms 10 0 0)) (wp 200 100 (hms 10 10 0))) by reflexivity.
  unfold check_segment_pair, check_spatial.
  rewrite (find_intersection_denominator_zero _ _ _ _ parallel_denominator).
  reflexivity.
Qed.

Lemma Rleb_true x0 y0 : Rleb x0 y0 = true <-> x0 <= y0.
Proof. unfold Rleb; destruct (Rle_dec x0 y0); split; intros; (congruence || lra). Qed.

Lemma Reqb_false x0 y0 : x0 <> y0 -> Reqb x0 y0 = false.
Proof. unfold Reqb; destruct (Req_EM_T x0 y0); congruence. Qed.

Lemma cross_intersection :
  find_intersection (wp 0 0 (hms 0 0 0)) (wp 10 10 (hms 0 10 0))
                    (wp 0 10 (hms 0 0 0)) (wp 10 0 (hms 0 10 0)) = Some (5, 5).
Proof.
  unfold find_intersection. cbv zeta.
  assert (Hd : denominator (wp 0 0 (hms 0 0 0)) (wp 10 10 (hms 0 10 0))
                 (wp 0 10 (hms 0 0 0)) (wp 10 0 (hms 0 10 0)) = -200)
    by (unfold denominator; simpl; ring).
  rewrite Hd, Reqb_false by lra. simpl x; simpl y.
  replace (((0 - 0) * (10 - 0) - (0 - 10) * (0 - 10)) / -200) with (1 / 2) by field.
  replace (- ((0 - 10) * (0 - 10) - (0 - 10) * (0 - 0)) / -200) with (1 / 2) by field.
  rewrite (proj2 (Rleb_true 0 (1 / 2))), (proj2 (Rleb_true (1 / 2) 1)) by lra.
  simpl. f_equal. f_equal; field.
Qed.

Lemma cross_conflict_time :
  calculate_conflict_time (wp 0 0 (hms 0 0 0)) (wp 10 10 (hms 0 10 0))
    (wp 0 10 (hms 0 0 0)) (wp 10 0 (hms 0 10 0)) (5, 5) = Ok (IZR (hms 0 5 0)).
Proof.
  unfold calculate_conflict_time, segment_length. cbv zeta. simpl fst; simpl snd.
  simpl x; simpl y.
  replace ((10 - 0) ^ 2 + (10 - 0) ^ 2) with (4 * 50) by ring.
  replace ((5 - 0) ^ 2 + (5 - 0) ^ 2) with 50 by ring.
  rewrite sqrt_mult by lra.
  replace 4 with (2 * 2) by ring. rewrite sqrt_square by lra.
  assert (H50 : 0 < sqrt 50) by (apply sqrt_lt_R0; lra).
  rewrite (proj2 (Rltb_true 0 (2 * sqrt 50))) by lra.
  simpl. f_equal. unfold hms; simpl. field. lra.
Qed.

Lemma cross_distance p :
  calculate_distance (wp 0 0 (hms 0 0 0)) (wp 0 10 (hms 0 0 0)) p = 10.
Proof.
  unfold calculate_distance; simpl.
  replace ((0 - 0) * ((0 - 0) * 1) + (0 - 10) * ((0 - 10) * 1)) with (10 * 10) by ring.
  apply sqrt_square. lra.
Qed.

(** The crossing scenario yields one conflict at [(5,5)], at 0:05:00, with
    distance 10. *)
Lemma cross_result buf :
  10 < buf ->
  check_mission buf cross_primary [cross_other] =
  Ok ("conflict detected"%string,
      [mkConflict (5, 5) (IZR (hms 0 5 0)) "primary" "other" 10]).
Proof.
  intro Hb.
  rewrite (check_mission_single_segments _ _ _
             (wp 0 0 (hms 0 0 0)) (wp 10 10 (hms 0 10 0))
             (wp 0 10 (hms 0 0 0)) (wp 10 0 (hms 0 10 0))) by reflexivity.
  unfold check_segment_pair, check_spatial.
  change (check_temporal_overlap (wp 0 0 (hms 0 0 0)) (wp 10 10 (hms 0 10 0))
            (wp 0 10 (hms 0 0 0)) (wp 10 0 (hms 0 10 0))) with (Ok (A := bool) true).
  cbn [bind]. rewrite cross_intersection, cross_conflict_time. cbn [bind].
  rewrite cross_distance, (proj2 (Rltb_true 10 buf)) by exact Hb.
  reflexivity.
Qed.

(** *** Where a reported conflict comes from *)

Lemma segments_In a b l : In (a, b) (segments l) -> In a l /\ In b l.
Proof.
  induction l as [|w l IH]; simpl; [tauto|].
  destruct l as [|w' l']; simpl; [tauto|].
  intros [H|H].
  - inversion H; subst; simpl; tauto.
  - specialize (IH H). simpl in IH. tauto.
Qed.

Lemma check_inner_In buf id1 id2 a0 a1 segs2 cs c :
  check_inner buf id1 id2 a0 a1 segs2 = Ok cs -> In c cs ->
  exists b0 b1, In (b0, b1) segs2 /\
    check_segment_pair buf id1 id2 a0 a1 b0 b1 = Ok (Some c).
Proof.
  revert cs. induction segs2 as [|[b0 b1] rest IH]; intros cs H Hc; simpl in H.
  - inversion H; subst; contradiction.
  - apply bind_Ok in H as [oc [Hoc H]]. apply bind_Ok in H as [cs' [Hcs H]].
    inversion H; subst; clear H. apply in_app_or in Hc as [Hc|Hc].
    + destruct oc as [c'|]; simpl in Hc; [|contradiction].
      destruct Hc as [<-|[]]. exists b0, b1. simpl; auto.
    + destruct (IH cs' Hcs Hc) as [b0' [b1' [Hin Hp]]].
      exists b0', b1'. simpl; auto.
Qed.

Lemma check_outer_In buf id1 id2 segs1 segs2 cs c :
  check_outer buf id1 id2 segs1 segs2 = Ok cs -> In c cs ->
  exists a0 a1 b0 b1, In (a0, a1) segs1 /\ In (b0, b1) segs2 /\
    check_segment_pair buf id1 id2 a0 a1 b0 b1 = Ok (Some c).
Proof.
  revert cs. induction segs1 as [|[a0 a1] rest IH]; intros cs H Hc; simpl in H.
  - inversion H; subst; contradiction.
  - apply bind_Ok in H as [cs1 [H1 H]]. apply bind_Ok in H as [cs2 [H2 H]].
    inversion H; subst; clear H. apply in_app_or in Hc as [Hc|Hc].
    + destruct (check_inner_In _ _ _ _ _ _ _ _ H1 Hc) as [b0 [b1 [Hin Hp]]].
      exists a0, a1, b0, b1. simpl; auto.
    + destruct (IH cs2 H2 Hc) as [a0' [a1' [b0 [b1 [Ha [Hb Hp]]]]]].
      exists a0', a1', b0, b1. simpl; auto.
Qed.

Lemma check_others_In buf p others cs c :
  check_others buf p others = Ok cs -> In c cs ->
  exists m cs', In m others /\ check_mission_pair buf p m = Ok cs' /\ In c cs'.
Proof.
  revert cs. induction others as [|m rest IH]; intros cs H Hc; simpl in H.
  - inversion H; subst; contradiction.
  - apply bind_Ok in H as [cs1 [H1 H]]. apply bind_Ok in H as [cs2 [H2 H]].
    inversion H; subst; clear H. apply in_app_or in Hc as [Hc|Hc].
    + exists m, cs1. simpl; auto.
    + destruct (IH cs2 H2 Hc) as [m' [cs' [Hm [Hp Hc']]]].
      exists m', cs'. simpl; auto.
Qed.

Lemma check_mission_In buf p others st cs c :
  check_mission buf p others = Ok (st, cs) -> In c cs ->
  exists m a0 a1 b0 b1, In m others /\
    In (a0, a1) (segments (waypoints p)) /\ In (b0, b1) (segments (waypoints m)) /\
    check_segment_pair buf (drone_id p) (drone_id m) a0 a1 b0 b1 = Ok (Some c).
Proof.
  intros H Hc. unfold check_mission in H. apply bind_Ok in H as [cs0 [H0 H]].
  assert (cs = cs0) by (destruct cs0; inversion H; subst; [contradiction | reflexivity]).
  subst cs0.
  destruct (check_others_In _ _ _ _ _ H0 Hc) as [m [cs' [Hm [Hp Hc']]]].
  destruct (check_outer_In _ _ _ _ _ _ _ Hp Hc') as [a0 [a1 [b0 [b1 [Ha [Hb Hs]]]]]].
  exists m, a0, a1, b0, b1. auto.
Qed.

(** *** Totality when every waypoint carries a timestamp *)

Definition timed (w : Waypoint) : Prop := has_timestamp w = true.

Lemma timed_Some w : timed w -> exists t, timestamp w = Some t.
Proof. unfold timed, has_timestamp. destruct (timestamp w); [eauto | discriminate]. Qed.

Lemma check_segment_pair_total buf id1 id2 a0 a1 b0 b1 :
  timed a0 -> timed a1 -> timed b0 -> timed b1 ->
  exists oc, check_segment_pair buf id1 id2 a0 a1 b0 b1 = Ok oc.
Proof.
  intros H0 H1 H2 H3.
  destruct (timed_Some _ H0) as [ta0 E0], (timed_Some _ H1) as [ta1 E1],
           (timed_Some _ H2) as [tb0 E2], (timed_Some _ H3) as [tb1 E3].
  unfold check_segment_pair, check_spatial, check_temporal_overlap.
  rewrite E0, E1, E2, E3. simpl.
  destruct (ta1 <? tb0)%Z; simpl; [eauto|].
  destruct (tb1 <? ta0)%Z; simpl; [eauto|].
  destruct (find_intersection a0 a1 b0 b1) as [p|]; [|eauto].
  unfold calculate_conflict_time. cbv zeta. rewrite E0, E1. simpl.
  destruct (Rltb _ buf); eauto.
Qed.

Lemma segments_timed l :
  Forall timed l -> Forall (fun s => timed (fst s) /\ timed (snd s)) (segments l).
Proof.
  intro H. apply Forall_forall. intros [a b] Hin.
  apply segments_In in Hin as [Ha Hb].
  rewrite Forall_forall in H. simpl. auto.
Qed.

Lemma check_inner_total buf id1 id2 a0 a1 segs2 :
  timed a0 -> timed a1 -> Forall (fun s => timed (fst s) /\ timed (snd s)) segs2 ->
  exists cs, check_inner buf id1 id2 a0 a1 segs2 = Ok cs.
Proof.
  intros H0 H1 H. induction H as [|[b0 b1] rest [Hb0 Hb1] _ IH]; simpl; [eauto|].
  destruct (check_segment_pair_total buf id1 id2 a0 a1 b0 b1 H0 H1 Hb0 Hb1) as [oc E].
  rewrite E. simpl. destruct IH as [cs E']. rewrite E'. simpl. eauto.
Qed.

Lemma check_outer_total buf id1 id2 segs1 segs2 :
  Forall (fun s => timed (fst s) /\ timed (snd s)) segs1 ->
  Forall (fun s => timed (fst s) /\ timed (snd s)) segs2 ->
  exists cs, check_outer buf id1 id2 segs1 segs2 = Ok cs.
Proof.
  intros H H2. induction H as [|[a0 a1] rest [Ha0 Ha1] _ IH]; simpl; [eauto|].
  destruct (check_inner_total buf id1 id2 a0 a1 segs2 Ha0 Ha1 H2) as [cs E].
  rewrite E. simpl. destruct IH as [cs' E']. rewrite E'. simpl. eauto.
Qed.

Lemma check_others_total buf p others :
  Forall timed (waypoints p) -> Forall (fun m => Forall timed (waypoints m)) others ->
  exists cs, check_others buf p others = Ok cs.
Proof.
  intros Hp H. induction H as [|m rest Hm _ IH]; simpl; [eauto|].
  destruct (check_outer_total buf (drone_id p) (drone_id m) _ _
              (segments_timed _ Hp) (segments_timed _ Hm)) as [cs E].
  unfold check_mission_pair. rewrite E. simpl.
  destruct IH as [cs' E']. rewrite E'. simpl. eauto.
Qed.

(** *** The stable sort of [Mission.__post_init__] *)

Definition ts_le (a b : Waypoint) : Prop := (ts_key a <= ts_key b)%Z.

Lemma insert_by_ts_perm w l : Permutation (w :: l) (insert_by_ts w l).
Proof.
  induction l as [|h t IH]; simpl; [reflexivity|].
  destruct (ts_key w <=? ts_key h)%Z; [reflexivity|].
  rewrite perm_swap. constructor. exact IH.
Qed.

Lemma sort_by_ts_perm l : Permutation l (sort_by_ts l).
Proof.
  induction l as [|h t IH]; simpl; [reflexivity|].
  rewrite <- insert_by_ts_perm. constructor. exact IH.
Qed.

Lemma insert_by_ts_HdRel h w l :
  ts_le h w -> HdRel ts_le h l -> HdRel ts_le h (insert_by_ts w l).
Proof.
  intros Hw Hl. destruct l as [|h' t]; simpl.
  - constructor. exact Hw.
  - destruct (ts_key w <=? ts_key h')%Z; constructor; [exact Hw|].
    inversion Hl; assumption.
Qed.

Lemma insert_by_ts_sorted w l : Sorted ts_le l -> Sorted ts_le (insert_by_ts w l).
Proof.
  induction 1 as [|h t Ht IH Hh]; simpl.
  - repeat constructor.
  - destruct (ts_key w <=? ts_key h)%Z eqn:E.
    + apply Z.leb_le in E. constructor; [constructor; assumption|]. constructor. exact E.
    + apply Z.leb_gt in E. constructor; [exact IH|].
      apply insert_by_ts_HdRel; [unfold ts_le; lia | exact Hh].
Qed.

Lemma sort_by_ts_sorted l : Sorted ts_le (sort_by_ts l).
Proof. induction l; simpl; [constructor | apply insert_by_ts_sorted; assumption]. Qed.

Lemma forallb_perm (f : Waypoint -> bool) l l' :
  Permutation l l' -> forallb f l = forallb f l'.
Proof.
  intro Hp. apply eq_true_iff_eq. rewrite !forallb_forall.
  split; intros H w Hw; apply H; [apply (Permutation_in w (Permutation_sym Hp)) |
                                  apply (Permutation_in w Hp)]; exact Hw.
Qed.

Lemma forallb_in_window_false s e l :
  forallb (in_window s e) l = false <->
  exists w t, In w l /\ timestamp w = Some t /\ ~ (s <= t <= e)%Z.
Proof.
  split.
  - induction l as [|w l IH]; simpl; [discriminate|].
    intro H. apply andb_false_iff in H as [Hf|H].
    + unfold in_window in Hf.
      destruct (timestamp w) as [t|] eqn:Et; [|discriminate].
      exists w, t. split; [left; reflexivity|]. split; [exact Et|].
      apply andb_false_iff in Hf as [Hf|Hf]; apply Z.leb_gt in Hf; lia.
    + destruct (IH H) as [w' [t [Hw [Et Ht]]]]. exists w', t. auto.
  - intros [w [t [Hw [Et Ht]]]]. apply not_true_iff_false. intro H.
    rewrite forallb_forall in H. specialize (H w Hw). unfold in_window in H.
    rewrite Et in H. apply andb_true_iff in H as [H1 H2].
    apply Z.leb_le in H1, H2. lia.
Qed.

(** *** Further facts on one segment pair *)


Lemma calculate_conflict_time_timed a0 a1 b0 b1 p ta0 ta1 :
  timestamp a0 = Some ta0 -> timestamp a1 = Some ta1 ->
  calculate_conflict_time a0 a1 b0 b1 p =
  Ok (IZR ta0 + (if Rltb 0 (segment_length a0 a1)
                 then sqrt ((fst p - x a0) ^ 2 + (snd p - y a0) ^ 2) / segment_length a0 a1
                 else 0) * IZR (ta1 - ta0)).
Proof. intros E0 E1. unfold calculate_conflict_time. rewrite E0, E1. reflexivity. Qed.

Lemma find_intersection_Some_denominator a0 a1 b0 b1 p :
  find_intersection a0 a1 b0 b1 = Some p -> denominator a0 a1 b0 b1 <> 0.
Proof.
  intros H Hd. rewrite (find_intersection_denominator_zero _ _ _ _ Hd) in H.
  discriminate.
Qed.

Lemma bind_Ok_r {A} (m : result A) : bind m (fun a => Ok a) = m.
Proof. destruct m; reflexivity. Qed.

Lemma check_outer_nil_r buf id1 id2 segs1 :
  check_outer buf id1 id2 segs1 [] = Ok [].
Proof. induction segs1 as [|[a0 a1] rest IH]; simpl; [|rewrite IH]; reflexivity. Qed.

Lemma segments_single l : List.length l = 1%nat -> segments l = [].
Proof. destruct l as [|a [|b l]]; simpl; congruence. Qed.

Lemma check_others_app_silent buf p l1 m l2 :
  check_mission_pair buf p m = Ok [] ->
  check_others buf p (l1 ++ m :: l2) = check_others buf p (l1 ++ l2).
Proof.
  intro Hm. induction l1 as [|m' l1 IH]; simpl.
  - rewrite Hm. simpl. apply bind_Ok_r.
  - rewrite IH. reflexivity.
Qed.

(** *** Binary64 arithmetic on zeros and NaN *)

Lemma b64_sub_eqb a b :
  Binary64.eqb a b = true -> Binary64.zero_or_nan (Binary64.sub a b) = true.
Proof.
  unfold Binary64.eqb, SpecFloat.SFeqb.
  destruct a as [sa|sa| |sa ma ea], b as [sb|sb| |sb mb eb]; simpl; intro H;
    try discriminate; try (destruct sa, sb; simpl in *; try discriminate; reflexivity).
  assert (E : sa = sb /\ ma = mb /\ ea = eb).
  { destruct sa, sb; try discriminate;
      destruct (Z.compare ea eb) eqn:Ee; try discriminate;
      apply Z.compare_eq in Ee; subst;
      destruct (Pos.compare_cont Eq ma mb) eqn:Em; try discriminate;
      apply Pos.compare_eq_iff in Em; subst; auto. }
  destruct E as [<- [<- <-]].
  unfold Binary64.sub, SpecFloat.SFsub. rewrite Z.sub_diag. reflexivity.
Qed.

Lemma b64_mul_l a b :
  Binary64.zero_or_nan a = true -> Binary64.zero_or_nan (Binary64.mul a b) = true.
Proof. destruct a, b; simpl; (discriminate || reflexivity). Qed.

Lemma b64_mul_r a b :
  Binary64.zero_or_nan b = true -> Binary64.zero_or_nan (Binary64.mul a b) = true.
Proof. destruct a, b; simpl; (discriminate || reflexivity). Qed.

Lemma b64_sub_zn a b :
  Binary64.zero_or_nan a = true -> Binary64.zero_or_nan b = true ->
  Binary64.zero_or_nan (Binary64.sub a b) = true.
Proof.
  destruct a as [sa| | |], b as [sb| | |]; simpl; try discriminate; try reflexivity.
  intros _ _. destruct sa, sb; reflexivity.
Qed.

Lemma b64_div_nan_r a : Binary64.div a SpecFloat.S754_nan = SpecFloat.S754_nan.
Proof. destruct a; reflexivity. Qed.

Lemma b64_denominator_zero_length a0 a1 b0 b1 :
  Binary64.zero_length a0 a1 = true \/ Binary64.zero_length b0 b1 = true ->
  Binary64.zero_or_nan (Binary64.denominator a0 a1 b0 b1) = true.
Proof.
  unfold Binary64.zero_length, Binary64.denominator.
  intros [H|H]; apply andb_true_iff in H as [Hx Hy];
    apply b64_sub_eqb in Hx; apply b64_sub_eqb in Hy; apply b64_sub_zn.
  - apply b64_mul_l; exact Hx.
  - apply b64_mul_l; exact Hy.
  - apply b64_mul_r; exact Hy.
  - apply b64_mul_r; exact Hx.
Qed.

Lemma b64_find_intersection_zn a0 a1 b0 b1 :
  Binary64.zero_or_nan (Binary64.denominator a0 a1 b0 b1) = true ->
  Binary64.find_intersection a0 a1 b0 b1 = None.
Proof.
  unfold Binary64.find_intersection. cbv zeta.
  destruct (Binary64.denominator a0 a1 b0 b1) eqn:D; simpl; try discriminate;
    intros _; [reflexivity|].
  rewrite !b64_div_nan_r. reflexivity.
Qed.

Lemma b64_check_segment_pair_None buf id1 id2 a0 a1 b0 b1 c :
  Binary64.find_intersection a0 a1 b0 b1 = None ->
  Binary64.check_segment_pair buf id1 id2 a0 a1 b0 b1 <> Binary64.Ok (Some c).
Proof.
  intros Hf. unfold Binary64.check_segment_pair.
  destruct (Binary64.check_temporal_overlap a0 a1 b0 b1) as [[|]|e]; simpl;
    [rewrite Hf| |]; discriminate.
Qed.

(** The underflow scenario, evaluated. *)
Lemma underflow_segment_pair :
  Binary64.check_segment_pair (Binary64.of_Z 50) "primary" "other"
    underflow_a0 underflow_a1 underflow_b0 underflow_b1
    = Binary64.Ok (Some underflow_conflict) /\
  Binary64.segment_length underflow_a0 underflow_a1 = Binary64.Ok Binary64.zero /\
  Binary64.zero_length underflow_a0 underflow_a1 = false /\
  Binary64.zero_length underflow_b0 underflow_b1 = false.
Proof. vm_compute. repeat split; reflexivity. Qed.

(** ** Claims *)

(** C1 (counterexample): in the head-on scenario with safety buffer 50,
    [check_mission] does not return exactly one conflict. *)
Lemma C1_head_on_not_one_conflict :
  ~ exists st cs, check_mission 50 head_on_primary [head_on_other] = Ok (st, cs) /\
                  List.length cs = 1%nat.
Proof.
  rewrite head_on_result. intros [st [cs [H Hl]]].
  inversion H; subst. discriminate.
Qed.

(** C1 (amended): in the head-on scenario the two segments lie on the same
    line [y = 100], so the denominator is 0 and no intersection is reported;
    [check_mission] with safety buffer 50 returns status "clear" and no
    conflict.  The start points are 200 apart. *)
Theorem C1_head_on_clear :
  denominator (wp 0 100 (hms 10 0 0)) (wp 200 100 (hms 10 10 0))
              (wp 200 100 (hms 10 0 0)) (wp 0 100 (hms 10 10 0)) = 0 /\
  find_intersection (wp 0 100 (hms 10 0 0)) (wp 200 100 (hms 10 10 0))
                    (wp 200 100 (hms 10 0 0)) (wp 0 100 (hms 10 10 0)) = None /\
  calculate_distance (wp 0 100 (hms 10 0 0)) (wp 200 100 (hms 10 0 0)) (0, 0) = 200 /\
  check_mission 50 head_on_primary [head_on_other] = Ok ("clear"%string, []).
Proof.
  split; [exact head_on_denominator|].
  split; [exact (find_intersection_denominator_zero _ _ _ _ head_on_denominator)|].
  split; [exact head_on_start_distance | exact head_on_result].
Qed.

(** C2 (counterexample): two missions whose waypoints carry no timestamp pass
    [Waypoint] and [Mission] construction, yet [check_mission] raises a
    [TypeError] (it compares [None < None]). *)
Lemma C2_untimed_missions_raise :
  Waypoint_new 0 0 None None = Ok (mkWaypoint 0 0 None None) /\
  Waypoint_new 10 10 None None = Ok (mkWaypoint 10 10 None None) /\
  exists p o,
    Mission_new untimed_wps 0 100 "primary" = Ok p /\
    Mission_new untimed_wps 0 100 "other" = Ok o /\
    check_mission 50 p [o] = Err TypeError.
Proof.
  assert (Hw : forall v, 0 <= v -> Waypoint_new v v None None = Ok (mkWaypoint v v None None)).
  { intros v Hv. unfold Waypoint_new.
    rewrite (proj2 (Rltb_false v 0)) by lra. reflexivity. }
  split; [apply Hw; lra|]. split; [apply Hw; lra|].
  eexists; eexists. split; [reflexivity|]. split; [reflexivity|]. reflexivity.
Qed.

(** C2 (amended): [check_mission] is not total over well-formed
    trajectories.  Its first timestamp comparison is [A1.t < B0.t] for the
    first segment of the primary mission and the first segment of the first
    other mission that has one; if either timestamp is missing, Python raises
    [TypeError] there, whatever the coordinates and the other timestamps. *)
Theorem C2_missing_timestamp_raises buf p pre m post w0 w1 rest v0 v1 rest' :
  waypoints p = w0 :: w1 :: rest ->
  Forall (fun o => (List.length (waypoints o) <= 1)%nat) pre ->
  waypoints m = v0 :: v1 :: rest' ->
  timestamp w1 = None \/ timestamp v0 = None ->
  check_mission buf p (pre ++ m :: post) = Err TypeError.
Proof.
  intros Hp Hpre Hm Hts.
  assert (Hpair : check_mission_pair buf p m = Err TypeError).
  { unfold check_mission_pair. rewrite Hp, Hm. simpl.
    unfold check_segment_pair, check_temporal_overlap.
    destruct Hts as [E|E]; rewrite E; simpl;
      [reflexivity | destruct (timestamp w1); reflexivity]. }
  assert (Hpre' : forall post', check_others buf p (pre ++ post') = check_others buf p post').
  { intro post'. induction Hpre as [|o pre Ho _ IH]; [reflexivity|].
    assert (Ho' : check_mission_pair buf p o = Ok []).
    { unfold check_mission_pair.
      destruct (waypoints o) as [|o0 [|o1 os]]; simpl in Ho; [| |lia];
        apply check_outer_nil_r. }
    simpl. rewrite Ho'. simpl. rewrite IH. destruct (check_others buf p post'); reflexivity. }
  unfold check_mission. rewrite Hpre'. simpl. rewrite Hpair. reflexivity.
Qed.

Lemma C2_missing_timestamp_raises_witness :
  check_mission 50 (mkMission untimed_wps 0 100 "primary")
    ([mkMission [wp 0 0 (hms 0 0 0)] 0 100 "hover"] ++
     mkMission untimed_wps 0 100 "other" :: []) = Err TypeError.
Proof.
  apply (C2_missing_timestamp_raises 50 (mkMission untimed_wps 0 100 "primary")
           [mkMission [wp 0 0 (hms 0 0 0)] 0 100 "hover"]
           (mkMission untimed_wps 0 100 "other") []
           (mkWaypoint 0 0 None None) (mkWaypoint 10 10 None None) []
           (mkWaypoint 0 0 None None) (mkWaypoint 10 10 None None) []);
    [reflexivity | repeat constructor | reflexivity | left; reflexivity].
Defined.

(** C3: for a segment pair whose four waypoints carry timestamps, the
    temporal test rejects the pair exactly when [A1.t < B0.t] or
    [B1.t < A0.t]; a rejected pair contributes no conflict whatever its
    geometry, a pair that is not rejected goes on to the geometric stage,
    and intervals that touch at one instant overlap. *)
Theorem C3_temporal_overlap_test a0 a1 b0 b1 ta0 ta1 tb0 tb1 :
  timestamp a0 = Some ta0 -> timestamp a1 = Some ta1 ->
  timestamp b0 = Some tb0 -> timestamp b1 = Some tb1 ->
  (check_temporal_overlap a0 a1 b0 b1 = Ok false <-> (ta1 < tb0 \/ tb1 < ta0)%Z) /\
  (check_temporal_overlap a0 a1 b0 b1 = Ok true <-> ~ (ta1 < tb0 \/ tb1 < ta0)%Z) /\
  ((ta1 < tb0 \/ tb1 < ta0)%Z ->
   forall buf id1 id2, check_segment_pair buf id1 id2 a0 a1 b0 b1 = Ok None) /\
  (~ (ta1 < tb0 \/ tb1 < ta0)%Z ->
   forall buf id1 id2, check_segment_pair buf id1 id2 a0 a1 b0 b1 =
                       check_spatial buf id1 id2 a0 a1 b0 b1) /\
  ((ta0 <= ta1)%Z -> (tb0 <= tb1)%Z -> (ta1 = tb0 \/ tb1 = ta0)%Z ->
   check_temporal_overlap a0 a1 b0 b1 = Ok true).
Proof.
  intros E0 E1 E2 E3.
  assert (Hov : check_temporal_overlap a0 a1 b0 b1 =
                Ok (negb ((ta1 <? tb0)%Z || (tb1 <? ta0)%Z))).
  { unfold check_temporal_overlap. rewrite E0, E1, E2, E3. simpl.
    destruct (ta1 <? tb0)%Z; reflexivity. }
  unfold check_segment_pair. rewrite Hov.
  destruct ((ta1 <? tb0)%Z || (tb1 <? ta0)%Z) eqn:Eb; simpl.
  - apply orb_true_iff in Eb. rewrite !Z.ltb_lt in Eb.
    repeat split; intros; try congruence; try tauto. lia.
  - apply orb_false_iff in Eb. rewrite !Z.ltb_ge in Eb.
    repeat split; intros; try congruence; try lia.
Qed.

Lemma C3_temporal_overlap_test_witness :
  check_temporal_overlap (wp 0 0 (hms 0 0 0)) (wp 10 10 (hms 0 10 0))
                         (wp 0 10 (hms 0 10 0)) (wp 10 0 (hms 0 20 0)) = Ok true.
Proof.
  refine (proj2 (proj2 (proj2 (proj2
    (C3_temporal_overlap_test (wp 0 0 (hms 0 0 0)) (wp 10 10 (hms 0 10 0))
       (wp 0 10 (hms 0 10 0)) (wp 10 0 (hms 0 20 0))
       (hms 0 0 0) (hms 0 10 0) (hms 0 10 0) (hms 0 20 0)
       eq_refl eq_refl eq_refl eq_refl)))) _ _ _); unfold hms; lia.
Defined.



(** C5: every conflict reported by [check_mission] comes from a segment pair
    of the primary and one other mission, and its distance, the one compared
    with the safety buffer, is the Euclidean distance between the two
    segments' start waypoints, whatever the intersection point. *)
Theorem C5_distance_is_start_distance buf p others st cs c :
  check_mission buf p others = Ok (st, cs) -> In c cs ->
  exists m a0 a1 b0 b1, In m others /\
    In (a0, a1) (segments (waypoints p)) /\ In (b0, b1) (segments (waypoints m)) /\
    check_segment_pair buf (drone_id p) (drone_id m) a0 a1 b0 b1 = Ok (Some c) /\
    distance c = sqrt ((x a0 - x b0) ^ 2 + (y a0 - y b0) ^ 2) /\
    distance c < buf /\
    (forall q, calculate_distance a0 b0 q = distance c).
Proof.
  intros H Hc.
  destruct (check_mission_In _ _ _ _ _ _ H Hc) as [m [a0 [a1 [b0 [b1 [Hm [Ha [Hb Hs]]]]]]]].
  exists m, a0, a1, b0, b1. repeat split; auto;
    destruct (check_segment_pair_Some _ _ _ _ _ _ _ _ Hs) as [_ [q [t [_ [_ [Hd ->]]]]]];
    simpl; auto.
Qed.

Lemma C5_distance_is_start_distance_witness :
  exists m a0 a1 b0 b1, In m [cross_other] /\
    In (a0, a1) (segments (waypoints cross_primary)) /\
    In (b0, b1) (segments (waypoints m)) /\
    check_segment_pair 50 "primary" (drone_id m) a0 a1 b0 b1 =
      Ok (Some (mkConflict (5, 5) (IZR (hms 0 5 0)) "primary" "other" 10)) /\
    distance (mkConflict (5, 5) (IZR (hms 0 5 0)) "primary" "other" 10) =
      sqrt ((x a0 - x b0) ^ 2 + (y a0 - y b0) ^ 2) /\
    distance (mkConflict (5, 5) (IZR (hms 0 5 0)) "primary" "other" 10) < 50 /\
    (forall q, calculate_distance a0 b0 q =
               distance (mkConflict (5, 5) (IZR (hms 0 5 0)) "primary" "other" 10)).
Proof.
  apply (C5_distance_is_start_distance 50 cross_primary [cross_other]
           "conflict detected" [mkConflict (5, 5) (IZR (hms 0 5 0)) "primary" "other" 10]);
    [apply cross_result; lra | left; reflexivity].
Defined.

(** C6: a segment pair whose denominator is exactly 0 yields no intersection
    point and no conflict; hence the parallel-paths scenario is "clear" with
    no conflict for every safety buffer, in particular every buffer up to
    100. *)
Theorem C6_parallel_no_conflict :
  (forall a0 a1 b0 b1, denominator a0 a1 b0 b1 = 0 ->
     find_intersection a0 a1 b0 b1 = None /\
     forall buf id1 id2 oc, check_segment_pair buf id1 id2 a0 a1 b0 b1 = Ok oc -> oc = None) /\
  (forall buf, check_mission buf parallel_primary [parallel_other] = Ok ("clear"%string, [])).
Proof.
  split.
  - intros a0 a1 b0 b1 Hd. pose proof (find_intersection_denominator_zero _ _ _ _ Hd) as Hf.
    split; [exact Hf|]. intros buf id1 id2 oc.
    apply check_segment_pair_no_intersection; exact Hf.
  - exact parallel_result.
Qed.

Lemma C6_parallel_no_conflict_witness :
  find_intersection (wp 0 0 (hms 10 0 0)) (wp 200 0 (hms 10 10 0))
                    (wp 0 100 (hms 10 0 0)) (wp 200 100 (hms 10 10 0)) = None.
Proof.
  apply (proj1 C6_parallel_no_conflict); unfold denominator; simpl; ring.
Defined.

(** C7: [Mission] construction fails exactly when the waypoint list is
    empty, or [end_time <= start_time], or a timestamped waypoint lies
    outside [[start_time, end_time]]; when it succeeds and every waypoint
    carries a timestamp the stored waypoints are the input sorted by
    timestamp, and otherwise they are the input in the caller's order. *)
Theorem C7_mission_construction wps s e id :
  ((exists err, Mission_new wps s e id = Err err) <->
   (wps = [] \/ (e <= s)%Z \/
    exists w t, In w wps /\ timestamp w = Some t /\ ~ (s <= t <= e)%Z)) /\
  (forall m, Mission_new wps s e id = Ok m ->
     (forallb has_timestamp wps = true ->
        Sorted ts_le (waypoints m) /\ Permutation wps (waypoints m)) /\
     (forallb has_timestamp wps = false -> waypoints m = wps)).
Proof.
  assert (Hperm : Permutation wps (if forallb has_timestamp wps then sort_by_ts wps else wps))
    by (destruct (forallb has_timestamp wps); [apply sort_by_ts_perm | reflexivity]).
  destruct wps as [|w0 rest].
  - split.
    + split; [intros _; left; reflexivity | intros _; eexists; reflexivity].
    + intros m H; discriminate.
  - unfold Mission_new. cbv beta iota zeta.
    destruct (e <=? s)%Z eqn:Hes.
    + apply Z.leb_le in Hes. split.
      * split; [intros _; right; left; exact Hes | intros _; eexists; reflexivity].
      * intros m H; discriminate.
    + apply Z.leb_gt in Hes.
      set (wps' := if forallb has_timestamp (w0 :: rest) then sort_by_ts (w0 :: rest)
                   else w0 :: rest) in *.
      pose proof (forallb_perm (in_window s e) _ _ Hperm) as Hfw.
      destruct (forallb (in_window s e) wps') eqn:Hw.
      * split.
        -- split; [intros [err H]; discriminate|].
           intros [H|[H|H]]; [discriminate | lia |].
           apply forallb_in_window_false in H. congruence.
        -- intros m H. inversion H; subst; clear H. cbn [waypoints]. split; intros Hall.
           ++ unfold wps'. rewrite Hall.
              split; [apply sort_by_ts_sorted | apply sort_by_ts_perm].
           ++ unfold wps'. rewrite Hall. reflexivity.
      * split.
        -- split; [intros _ | intros _; eexists; reflexivity].
           right; right. apply forallb_in_window_false. congruence.
        -- intros m H; discriminate.
Qed.

Lemma C7_mission_construction_witness :
  Sorted ts_le [wp 5 5 (hms 0 0 0); wp 0 0 (hms 0 10 0)] /\
  Permutation [wp 0 0 (hms 0 10 0); wp 5 5 (hms 0 0 0)]
              [wp 5 5 (hms 0 0 0); wp 0 0 (hms 0 10 0)].
Proof.
  exact (proj1 (proj2 (C7_mission_construction
                         [wp 0 0 (hms 0 10 0); wp 5 5 (hms 0 0 0)]
                         (hms 0 0 0) (hms 0 10 0) "d")
                  (mkMission [wp 5 5 (hms 0 0 0); wp 0 0 (hms 0 10 0)]
                             (hms 0 0 0) (hms 0 10 0) "d") eq_refl) eq_refl).
Defined.

(** C8: [Waypoint] construction fails exactly when [x < 0], [y < 0] or an
    altitude [z] is present and negative; [x = 0, y = 0] with no altitude or
    a non-negative one is accepted. *)
Theorem C8_waypoint_construction x0 y0 z0 ts :
  ((exists err, Waypoint_new x0 y0 z0 ts = Err err) <->
   (x0 < 0 \/ y0 < 0 \/ exists zz, z0 = Some zz /\ zz < 0)) /\
  ((z0 = None \/ exists zz, z0 = Some zz /\ 0 <= zz) ->
   Waypoint_new 0 0 z0 ts = Ok (mkWaypoint 0 0 z0 ts)).
Proof.
  split.
  - unfold Waypoint_new.
    destruct (Rltb x0 0) eqn:Ex; simpl.
    { apply Rltb_true in Ex. split; [intros _; left; exact Ex | intros _; eexists; reflexivity]. }
    destruct (Rltb y0 0) eqn:Ey; simpl.
    { apply Rltb_true in Ey.
      split; [intros _; right; left; exact Ey | intros _; eexists; reflexivity]. }
    apply Rltb_false in Ex, Ey.
    destruct z0 as [zz|].
    + destruct (Rltb zz 0) eqn:Ez.
      * apply Rltb_true in Ez. split; [intros _ | intros _; eexists; reflexivity].
        right; right; exists zz; auto.
      * apply Rltb_false in Ez. split; [intros [err H]; discriminate|].
        intros [H|[H|[zz' [Hz Hzz]]]]; [lra | lra |]. inversion Hz; subst. lra.
    + split; [intros [err H]; discriminate|].
      intros [H|[H|[zz' [Hz Hzz]]]]; [lra | lra | discriminate].
  - intro H. unfold Waypoint_new.
    rewrite (proj2 (Rltb_false 0 0)) by lra. simpl.
    destruct H as [->|[zz [-> Hz]]]; [reflexivity|].
    rewrite (proj2 (Rltb_false zz 0)) by lra. reflexivity.
Qed.

Lemma C8_waypoint_construction_witness :
  Waypoint_new 0 0 (Some 5) None = Ok (mkWaypoint 0 0 (Some 5) None).
Proof.
  apply (proj2 (C8_waypoint_construction 0 0 (Some 5) None)).
  right. exists 5. split; [reflexivity | lra].
Defined.

(** A mission with a single waypoint. *)
Definition single_mission : Mission :=
  mkMission [wp 0 0 (hms 0 0 0)] (hms 0 0 0) (hms 0 10 0) "single".

Lemma check_mission_pair_single buf m other :
  List.length (waypoints m) = 1%nat ->
  check_mission_pair buf m other = Ok [] /\ check_mission_pair buf other m = Ok [].
Proof.
  intro H. unfold check_mission_pair. rewrite (segments_single _ H).
  split; [reflexivity | apply check_outer_nil_r].
Qed.

(** C9: a mission with exactly one waypoint has no segment: as primary or
    as another mission it contributes no conflict, and [check_mission] with
    it as primary is "clear". *)
Theorem C9_single_waypoint_no_conflict buf m :
  List.length (waypoints m) = 1%nat ->
  (forall other, check_mission_pair buf m other = Ok [] /\
                 check_mission_pair buf other m = Ok []) /\
  (forall others, check_mission buf m others = Ok ("clear"%string, [])) /\
  (forall p l1 l2, check_mission buf p (l1 ++ m :: l2) = check_mission buf p (l1 ++ l2)).
Proof.
  intro H. split; [|split].
  - intro other. apply check_mission_pair_single; exact H.
  - intro others. unfold check_mission.
    assert (Ho : check_others buf m others = Ok []).
    { induction others as [|o rest IH]; simpl; [reflexivity|].
      rewrite (proj1 (check_mission_pair_single buf m o H)). simpl.
      rewrite IH. reflexivity. }
    rewrite Ho. reflexivity.
  - intros p l1 l2. unfold check_mission.
    rewrite check_others_app_silent; [reflexivity|].
    apply (proj2 (check_mission_pair_single buf m p H)).
Qed.

Lemma C9_single_waypoint_no_conflict_witness :
  check_mission 50 single_mission [cross_other] = Ok ("clear"%string, []).
Proof.
  exact (proj1 (proj2 (C9_single_waypoint_no_conflict 50 single_mission eq_refl))
               [cross_other]).
Defined.

(** C10 (counterexample): in the binary64 arithmetic of the program, the
    branch of [_calculate_conflict_time] that sets the ratio to 0 is taken on
    a path that reports a conflict.  The primary segment (0,1)-(1e-200,1) has
    positive length, but [(1e-200)**2] underflows to 0.0, so
    [total_dist1 > 0] fails; the denominator is -2e-200, the segment crosses
    (5e-201,2)-(5e-201,0) at t = u = 0.5, and the start points are 1.0 apart,
    below the buffer 50.  Both missions pass construction, and
    [check_mission] reports the conflict at the primary segment's start
    time. *)
Lemma C10_underflow_ratio_zero_conflict :
  (forall w, In w [underflow_a0; underflow_a1; underflow_b0; underflow_b1] ->
   Binary64.Waypoint_new (Binary64.x w) (Binary64.y w) (Binary64.z w)
     (Binary64.timestamp w) = Binary64.Ok w) /\
  Binary64.Mission_new [underflow_a0; underflow_a1] (hms 0 0 0) (hms 0 10 0) "primary"
    = Binary64.Ok (Binary64.mkMission [underflow_a0; underflow_a1]
                     (hms 0 0 0) (hms 0 10 0) "primary") /\
  Binary64.Mission_new [underflow_b0; underflow_b1] (hms 0 0 0) (hms 0 10 0) "other"
    = Binary64.Ok (Binary64.mkMission [underflow_b0; underflow_b1]
                     (hms 0 0 0) (hms 0 10 0) "other") /\
  Binary64.check_mission (Binary64.of_Z 50)
    (Binary64.mkMission [underflow_a0; underflow_a1] (hms 0 0 0) (hms 0 10 0) "primary")
    [Binary64.mkMission [underflow_b0; underflow_b1] (hms 0 0 0) (hms 0 10 0) "other"]
    = Binary64.Ok ("conflict detected"%string, [underflow_conflict]) /\
  Binary64.zero_length underflow_a0 underflow_a1 = false /\
  Binary64.segment_length underflow_a0 underflow_a1 = Binary64.Ok Binary64.zero /\
  Binary64.ltb Binary64.zero Binary64.zero = false.
Proof.
  split; [intros w Hw; simpl in Hw;
          repeat (destruct Hw as [<-|Hw]; [vm_compute; reflexivity|]); destruct Hw|].
  split; [vm_compute; reflexivity|]. split; [vm_compute; reflexivity|].
  split; [vm_compute; reflexivity|].
  destruct underflow_segment_pair as [_ [Hl [Hz _]]].
  split; [exact Hz|]. split; [exact Hl | reflexivity].
Qed.

(** C10 (amended), in binary64 arithmetic: if one segment of a pair has zero
    length ([x] and [y] of its two waypoints compare equal), the denominator
    is a zero, or NaN when a coordinate is infinite (then t is NaN and fails
    [0 <= t]), so [_find_intersection] returns [None] and the pair emits no
    conflict.  The ratio-0 branch of [_calculate_conflict_time] is still
    reachable on a path that emits a conflict: a primary segment of positive
    length whose squared length underflows has [total_dist1 = 0.0]. *)
Theorem C10_zero_length_segment_no_conflict_binary64 :
  (forall a0 a1 b0 b1,
     Binary64.zero_length a0 a1 = true \/ Binary64.zero_length b0 b1 = true ->
     Binary64.zero_or_nan (Binary64.denominator a0 a1 b0 b1) = true /\
     Binary64.find_intersection a0 a1 b0 b1 = None /\
     forall buf id1 id2 c,
       Binary64.check_segment_pair buf id1 id2 a0 a1 b0 b1 <> Binary64.Ok (Some c)) /\
  (exists a0 a1 b0 b1 c,
     Binary64.zero_length a0 a1 = false /\
     Binary64.check_segment_pair (Binary64.of_Z 50) "primary" "other" a0 a1 b0 b1
       = Binary64.Ok (Some c) /\
     Binary64.segment_length a0 a1 = Binary64.Ok Binary64.zero).
Proof.
  split.
  - intros a0 a1 b0 b1 H.
    pose proof (b64_denominator_zero_length a0 a1 b0 b1 H) as Hd.
    pose proof (b64_find_intersection_zn a0 a1 b0 b1 Hd) as Hf.
    split; [exact Hd|]. split; [exact Hf|].
    intros buf id1 id2 c. apply b64_check_segment_pair_None; exact Hf.
  - destruct underflow_segment_pair as [Hc [Hl [Hz _]]].
    exists underflow_a0, underflow_a1, underflow_b0, underflow_b1, underflow_conflict.
    auto.
Qed.

Lemma C10_zero_length_segment_no_conflict_binary64_witness :
  Binary64.find_intersection
    (Binary64.mkWaypoint (Binary64.of_Z 5) (Binary64.of_Z 5) None (Some (hms 0 0 0)))
    (Binary64.mkWaypoint (Binary64.of_Z 5) (Binary64.of_Z 5) None (Some (hms 0 10 0)))
    (Binary64.mkWaypoint Binary64.zero (Binary64.of_Z 10) None (Some (hms 0 0 0)))
    (Binary64.mkWaypoint (Binary64.of_Z 10) Binary64.zero None (Some (hms 0 10 0)))
  = None.
Proof.
  exact (proj1 (proj2 (proj1 C10_zero_length_segment_no_conflict_binary64
    (Binary64.mkWaypoint (Binary64.of_Z 5) (Binary64.of_Z 5) None (Some (hms 0 0 0)))
    (Binary64.mkWaypoint (Binary64.of_Z 5) (Binary64.of_Z 5) None (Some (hms 0 10 0)))
    (Binary64.mkWaypoint Binary64.zero (Binary64.of_Z 10) None (Some (hms 0 0 0)))
    (Binary64.mkWaypoint (Binary64.of_Z 10) Binary64.zero None (Some (hms 0 10 0)))
    (or_introl eq_refl)))).
Defined.

(** ** Further properties of the detector *)

Lemma check_mission_shape buf p others st cs :
  check_mission buf p others = Ok (st, cs) ->
  check_others buf p others = Ok cs /\
  st = (match cs with [] => "clear" | _ => "conflict detected" end)%string.
Proof.
  unfold check_mission. intro H. apply bind_Ok in H as [cs0 [H0 H]].
  destruct cs0; inversion H; subst; auto.
Qed.

(** Checking against [l1 ++ l2] reports the conflicts of [l1] followed by
    those of [l2]; the status is "clear" exactly when both are. *)
Theorem check_mission_app buf p l1 l2 s1 c1 s2 c2 :
  check_mission buf p l1 = Ok (s1, c1) -> check_mission buf p l2 = Ok (s2, c2) ->
  check_mission buf p (l1 ++ l2) =
  Ok ((if String.eqb s1 "clear" && String.eqb s2 "clear" then "clear"
       else "conflict detected")%string, c1 ++ c2) /\
  (s1 = "clear"%string <-> c1 = []).
Proof.
  intros H1 H2.
  apply check_mission_shape in H1 as [E1 ->]. apply check_mission_shape in H2 as [E2 ->].
  assert (Happ : forall l, check_others buf p (l ++ l2) =
                 let* a := check_others buf p l in
                 let* b := check_others buf p l2 in Ok (a ++ b)).
  { induction l as [|m l IH]; simpl.
    - destruct (check_others buf p l2); reflexivity.
    - destruct (check_mission_pair buf p m) as [cm|]; simpl; [|reflexivity].
      rewrite IH. destruct (check_others buf p l) as [a|]; simpl; [|reflexivity].
      destruct (check_others buf p l2) as [b|]; simpl; [|reflexivity].
      rewrite app_assoc. reflexivity. }
  unfold check_mission. rewrite Happ, E1, E2. simpl.
  split; [|destruct c1; split; intro; congruence].
  destruct c1, c2; reflexivity.
Qed.

Lemma check_mission_app_witness :
  check_mission 50 cross_primary ([cross_other] ++ [parallel_other]) =
  Ok ((if String.eqb "conflict detected" "clear" && String.eqb "clear" "clear" then "clear"
       else "conflict detected")%string,
      [mkConflict (5, 5) (IZR (hms 0 5 0)) "primary" "other" 10] ++ []) /\
  ("conflict detected"%string = "clear"%string <->
   [mkConflict (5, 5) (IZR (hms 0 5 0)) "primary" "other" 10] = []).
Proof.
  apply check_mission_app.
  - apply cross_result. lra.
  - unfold check_mission, check_others, check_mission_pair. cbn -[check_segment_pair].
    unfold check_segment_pair. cbn [check_temporal_overlap ts_lt timestamp wp bind].
    replace (hms 0 10 0 <? hms 10 0 0)%Z with true by reflexivity. reflexivity.
Defined.

(** With timestamps on all four waypoints the temporal test does not depend
    on which segment is the primary one. *)
Theorem check_temporal_overlap_sym a0 a1 b0 b1 :
  timed a0 -> timed a1 -> timed b0 -> timed b1 ->
  check_temporal_overlap a0 a1 b0 b1 = check_temporal_overlap b0 b1 a0 a1.
Proof.
  intros H0 H1 H2 H3.
  destruct (timed_Some _ H0) as [ta0 E0], (timed_Some _ H1) as [ta1 E1],
           (timed_Some _ H2) as [tb0 E2], (timed_Some _ H3) as [tb1 E3].
  unfold check_temporal_overlap. rewrite E0, E1, E2, E3. simpl.
  destruct (ta1 <? tb0)%Z, (tb1 <? ta0)%Z; reflexivity.
Qed.

Lemma check_temporal_overlap_sym_witness :
  check_temporal_overlap (wp 0 0 (hms 0 0 0)) (wp 10 10 (hms 0 10 0))
                         (wp 0 10 (hms 0 20 0)) (wp 10 0 (hms 0 30 0)) =
  check_temporal_overlap (wp 0 10 (hms 0 20 0)) (wp 10 0 (hms 0 30 0))
                         (wp 0 0 (hms 0 0 0)) (wp 10 10 (hms 0 10 0)).
Proof. apply check_temporal_overlap_sym; reflexivity. Defined.

Lemma Rleb_true_inv x0 y0 : Rleb x0 y0 = true -> x0 <= y0.
Proof. apply Rleb_true. Qed.

Lemma find_intersection_Some_inv a0 a1 b0 b1 p :
  find_intersection a0 a1 b0 b1 = Some p ->
  let den := denominator a0 a1 b0 b1 in
  let t := ((x a0 - x b0) * (y b0 - y b1) - (y a0 - y b0) * (x b0 - x b1)) / den in
  let u := - ((x a0 - x a1) * (y a0 - y b0) - (y a0 - y a1) * (x a0 - x b0)) / den in
  den <> 0 /\ 0 <= t <= 1 /\ 0 <= u <= 1 /\
  p = (x a0 + t * (x a1 - x a0), y a0 + t * (y a1 - y a0)).
Proof.
  intro H. pose proof (find_intersection_Some_denominator _ _ _ _ _ H) as Hd.
  unfold find_intersection in H. cbv zeta in H. cbv zeta.
  rewrite Reqb_false in H by exact Hd.
  destruct (Rleb 0 _) eqn:E1; [|discriminate].
  destruct (Rleb _ 1) eqn:E2; [|discriminate].
  destruct (Rleb 0 _) eqn:E3 in H; [|discriminate].
  destruct (Rleb _ 1) eqn:E4 in H; [|discriminate].
  simpl in H. inversion H; subst; clear H.
  apply Rleb_true_inv in E1, E2, E3, E4. repeat split; auto.
Qed.

(** The point reported by [_find_intersection] lies on both segments: it is
    [P1 + t (P2 - P1)] and [P3 + u (P4 - P3)] with [t] and [u] in [[0, 1]]. *)
Theorem find_intersection_on_both_segments a0 a1 b0 b1 p :
  find_intersection a0 a1 b0 b1 = Some p ->
  exists t u, 0 <= t <= 1 /\ 0 <= u <= 1 /\
    p = (x a0 + t * (x a1 - x a0), y a0 + t * (y a1 - y a0)) /\
    p = (x b0 + u * (x b1 - x b0), y b0 + u * (y b1 - y b0)).
Proof.
  intro H. destruct (find_intersection_Some_inv _ _ _ _ _ H) as [Hd [Ht [Hu ->]]].
  eexists; eexists. split; [exact Ht|]. split; [exact Hu|]. split; [reflexivity|].
  unfold denominator in *.
  f_equal; field; exact Hd.
Qed.

Lemma find_intersection_on_both_segments_witness :
  exists t u, 0 <= t <= 1 /\ 0 <= u <= 1 /\
    ((5, 5) : R * R) = (0 + t * (10 - 0), 0 + t * (10 - 0)) /\
    ((5, 5) : R * R) = (0 + u * (10 - 0), 10 + u * (0 - 10)).
Proof.
  exact (find_intersection_on_both_segments
           (wp 0 0 (hms 0 0 0)) (wp 10 10 (hms 0 10 0))
           (wp 0 10 (hms 0 0 0)) (wp 10 0 (hms 0 10 0)) (5, 5) cross_intersection).
Defined.

(** [_find_intersection] is symmetric in its two segments: swapping them
    gives the same answer, the same point or [None]. *)
Theorem find_intersection_sym a0 a1 b0 b1 :
  find_intersection a0 a1 b0 b1 = find_intersection b0 b1 a0 a1.
Proof.
  unfold find_intersection, denominator. cbv zeta.
  set (X1 := x a0); set (Y1 := y a0); set (X2 := x a1); set (Y2 := y a1);
  set (X3 := x b0); set (Y3 := y b0); set (X4 := x b1); set (Y4 := y b1).
  set (D := (X1 - X2) * (Y3 - Y4) - (Y1 - Y2) * (X3 - X4)).
  replace ((X3 - X4) * (Y1 - Y2) - (Y3 - Y4) * (X1 - X2)) with (- D) by (unfold D; ring).
  destruct (Req_EM_T D 0) as [HD|HD].
  - rewrite (proj2 (Reqb_true D 0) HD), (proj2 (Reqb_true (- D) 0)) by lra. reflexivity.
  - rewrite (Reqb_false D 0 HD), (Reqb_false (- D) 0) by lra.
    replace (((X3 - X1) * (Y1 - Y2) - (Y3 - Y1) * (X1 - X2)) / - D)
      with (- ((X1 - X2) * (Y1 - Y3) - (Y1 - Y2) * (X1 - X3)) / D)
      by (field; exact HD).
    replace (- ((X3 - X4) * (Y3 - Y1) - (Y3 - Y4) * (X3 - X1)) / - D)
      with (((X1 - X3) * (Y3 - Y4) - (Y1 - Y3) * (X3 - X4)) / D)
      by (field; exact HD).
    set (T := ((X1 - X3) * (Y3 - Y4) - (Y1 - Y3) * (X3 - X4)) / D).
    set (U := - ((X1 - X2) * (Y1 - Y3) - (Y1 - Y2) * (X1 - X3)) / D).
    destruct (Rleb 0 T), (Rleb T 1), (Rleb 0 U), (Rleb U 1); simpl; try reflexivity.
    f_equal. unfold T, U, D. f_equal; field; exact HD.
Qed.

Lemma segment_length_pos a0 a1 b0 b1 :
  denominator a0 a1 b0 b1 <> 0 -> 0 < segment_length a0 a1.
Proof.
  intro Hden. unfold segment_length. apply sqrt_lt_R0.
  destruct (Req_dec (x a1) (x a0)) as [Ex|Ex];
    destruct (Req_dec (y a1) (y a0)) as [Ey|Ey].
  - exfalso. apply Hden. unfold denominator. rewrite Ex, Ey. ring.
  - assert (0 < Rsqr (y a1 - y a0)) by (apply Rsqr_pos_lt; lra).
    unfold Rsqr in *. simpl. nra.
  - assert (0 < Rsqr (x a1 - x a0)) by (apply Rsqr_pos_lt; lra).
    unfold Rsqr in *. simpl. nra.
  - assert (0 < Rsqr (x a1 - x a0)) by (apply Rsqr_pos_lt; lra).
    unfold Rsqr in *. simpl. nra.
Qed.

(** The conflict time of [_calculate_conflict_time] is the linear
    interpolation of the primary segment's timestamps at the intersection's
    parameter [t] along the primary segment; for a segment whose timestamps
    are in order it lies between them. *)
Theorem conflict_time_interpolates a0 a1 b0 b1 p ta0 ta1 :
  timestamp a0 = Some ta0 -> timestamp a1 = Some ta1 ->
  find_intersection a0 a1 b0 b1 = Some p ->
  exists t, 0 <= t <= 1 /\
    p = (x a0 + t * (x a1 - x a0), y a0 + t * (y a1 - y a0)) /\
    calculate_conflict_time a0 a1 b0 b1 p = Ok (IZR ta0 + t * IZR (ta1 - ta0)) /\
    ((ta0 <= ta1)%Z -> IZR ta0 <= IZR ta0 + t * IZR (ta1 - ta0) <= IZR ta1).
Proof.
  intros E0 E1 H.
  destruct (find_intersection_Some_inv _ _ _ _ _ H) as [Hd [Ht [_ Hp]]].
  revert Ht Hp.
  set (t := ((x a0 - x b0) * (y b0 - y b1) - (y a0 - y b0) * (x b0 - x b1)) /
            denominator a0 a1 b0 b1).
  intros Ht Hp.
  pose proof (segment_length_pos _ _ _ _ Hd) as HL.
  exists t. split; [exact Ht|]. split; [exact Hp|].
  split.
  - rewrite (calculate_conflict_time_timed _ _ b0 b1 p _ _ E0 E1).
    rewrite (proj2 (Rltb_true 0 (segment_length a0 a1)) HL).
    f_equal. f_equal. f_equal.
    rewrite Hp. simpl fst; simpl snd.
    replace ((x a0 + t * (x a1 - x a0) - x a0) ^ 2 + (y a0 + t * (y a1 - y a0) - y a0) ^ 2)
      with ((t * t) * ((x a1 - x a0) ^ 2 + (y a1 - y a0) ^ 2)) by ring.
    rewrite sqrt_mult;
      [| nra | apply Rplus_le_le_0_compat; apply pow2_ge_0].
    rewrite sqrt_square by lra.
    fold (segment_length a0 a1). field. lra.
  - intro Hle. apply IZR_le in Hle. rewrite minus_IZR. nra.
Qed.

Lemma conflict_time_interpolates_witness :
  exists t, 0 <= t <= 1 /\
    ((5, 5) : R * R) = (0 + t * (10 - 0), 0 + t * (10 - 0)) /\
    calculate_conflict_time (wp 0 0 (hms 0 0 0)) (wp 10 10 (hms 0 10 0))
      (wp 0 10 (hms 0 0 0)) (wp 10 0 (hms 0 10 0)) (5, 5) =
      Ok (IZR (hms 0 0 0) + t * IZR (hms 0 10 0 - hms 0 0 0)) /\
    ((hms 0 0 0 <= hms 0 10 0)%Z ->
     IZR (hms 0 0 0) <= IZR (hms 0 0 0) + t * IZR (hms 0 10 0 - hms 0 0 0)
                    <= IZR (hms 0 10 0)).
Proof.
  exact (conflict_time_interpolates (wp 0 0 (hms 0 0 0)) (wp 10 10 (hms 0 10 0))
           (wp 0 10 (hms 0 0 0)) (wp 10 0 (hms 0 10 0)) (5, 5) _ _
           eq_refl eq_refl cross_intersection).
Defined.

(** *** The safety buffer *)

Definition keep_below (buf : R) (c : Conflict) : bool := Rltb (distance c) buf.

Lemma check_segment_pair_buffer buf1 buf2 id1 id2 a0 a1 b0 b1 :
  buf1 <= buf2 ->
  check_segment_pair buf1 id1 id2 a0 a1 b0 b1 =
  let* oc := check_segment_pair buf2 id1 id2 a0 a1 b0 b1 in
  Ok (match oc with Some c => if keep_below buf1 c then Some c else None | None => None end).
Proof.
  intro Hb. unfold check_segment_pair, check_spatial.
  destruct (check_temporal_overlap a0 a1 b0 b1) as [[|]|e]; simpl; try reflexivity.
  destruct (find_intersection a0 a1 b0 b1) as [p|]; simpl; [|reflexivity].
  destruct (calculate_conflict_time a0 a1 b0 b1 p) as [t|e]; simpl; [|reflexivity].
  unfold keep_below; simpl.
  destruct (Rltb (calculate_distance a0 b0 p) buf2) eqn:E2; simpl;
    destruct (Rltb (calculate_distance a0 b0 p) buf1) eqn:E1; simpl; try reflexivity.
  apply Rltb_true in E1. apply Rltb_false in E2. lra.
Qed.

Lemma check_inner_buffer buf1 buf2 id1 id2 a0 a1 segs2 :
  buf1 <= buf2 ->
  check_inner buf1 id1 id2 a0 a1 segs2 =
  let* cs := check_inner buf2 id1 id2 a0 a1 segs2 in Ok (filter (keep_below buf1) cs).
Proof.
  intro Hb. induction segs2 as [|[b0 b1] rest IH]; simpl; [reflexivity|].
  rewrite (check_segment_pair_buffer buf1 buf2) by exact Hb.
  destruct (check_segment_pair buf2 id1 id2 a0 a1 b0 b1) as [oc|e]; simpl; [|reflexivity].
  rewrite IH. destruct (check_inner buf2 id1 id2 a0 a1 rest) as [cs|e]; simpl; [|reflexivity].
  rewrite filter_app. destruct oc as [c|]; simpl; [|reflexivity].
  destruct (keep_below buf1 c); reflexivity.
Qed.

Lemma check_outer_buffer buf1 buf2 id1 id2 segs1 segs2 :
  buf1 <= buf2 ->
  check_outer buf1 id1 id2 segs1 segs2 =
  let* cs := check_outer buf2 id1 id2 segs1 segs2 in Ok (filter (keep_below buf1) cs).
Proof.
  intro Hb. induction segs1 as [|[a0 a1] rest IH]; simpl; [reflexivity|].
  rewrite (check_inner_buffer buf1 buf2) by exact Hb.
  destruct (check_inner buf2 id1 id2 a0 a1 segs2) as [cs|e]; simpl; [|reflexivity].
  rewrite IH. destruct (check_outer buf2 id1 id2 rest segs2) as [cs'|e]; simpl; [|reflexivity].
  rewrite filter_app. reflexivity.
Qed.

Lemma check_others_buffer buf1 buf2 p others :
  buf1 <= buf2 ->
  check_others buf1 p others =
  let* cs := check_others buf2 p others in Ok (filter (keep_below buf1) cs).
Proof.
  intro Hb. induction others as [|m rest IH]; simpl; [reflexivity|].
  unfold check_mission_pair at 1. rewrite (check_outer_buffer buf1 buf2) by exact Hb.
  fold (check_mission_pair buf2 p m).
  destruct (check_mission_pair buf2 p m) as [cs|e]; simpl; [|reflexivity].
  rewrite IH. destruct (check_others buf2 p rest) as [cs'|e]; simpl; [|reflexivity].
  rewrite filter_app. reflexivity.
Qed.

(** Shrinking the safety buffer from [buf2] to [buf1] keeps exactly the
    conflicts whose distance is below [buf1], in the same order; whether
    [check_mission] raises does not depend on the buffer. *)
Theorem check_mission_buffer_monotone buf1 buf2 p others :
  buf1 <= buf2 ->
  (forall e, check_mission buf1 p others = Err e <-> check_mission buf2 p others = Err e) /\
  (forall s2 cs2, check_mission buf2 p others = Ok (s2, cs2) ->
     exists s1, check_mission buf1 p others = Ok (s1, filter (keep_below buf1) cs2)).
Proof.
  intro Hb. unfold check_mission. rewrite (check_others_buffer buf1 buf2) by exact Hb.
  destruct (check_others buf2 p others) as [cs|e']; simpl.
  - split.
    + intro e. destruct (filter (keep_below buf1) cs), cs; split; discriminate.
    + intros s2 cs2 H. assert (cs2 = cs) by (destruct cs; inversion H; reflexivity).
      subst cs2. destruct (filter (keep_below buf1) cs); eexists; reflexivity.
  - split; [tauto | intros s2 cs2 H; discriminate].
Qed.

Lemma check_mission_buffer_monotone_witness :
  exists s1, check_mission 5 cross_primary [cross_other] =
    Ok (s1, filter (keep_below 5) [mkConflict (5, 5) (IZR (hms 0 5 0)) "primary" "other" 10]).
Proof.
  apply (proj2 (check_mission_buffer_monotone 5 50 cross_primary [cross_other] ltac:(lra))
           "conflict detected"%string).
  apply cross_result. lra.
Defined.

(** A safety buffer of 0 or less never reports a conflict. *)
Theorem check_mission_nonpositive_buffer buf p others r :
  buf <= 0 -> check_mission buf p others = Ok r -> r = ("clear"%string, []).
Proof.
  intros Hb H. destruct r as [st cs].
  destruct cs as [|c cs].
  - apply check_mission_shape in H as [_ ->]. reflexivity.
  - exfalso.
    destruct (check_mission_In _ _ _ _ _ c H (or_introl eq_refl))
      as [m [a0 [a1 [b0 [b1 [_ [_ [_ Hs]]]]]]]].
    destruct (check_segment_pair_Some _ _ _ _ _ _ _ _ Hs) as [_ [q [t [_ [_ [Hd _]]]]]].
    pose proof (sqrt_pos ((x a0 - x b0) ^ 2 + (y a0 - y b0) ^ 2)).
    unfold calculate_distance in Hd. lra.
Qed.

Lemma check_mission_nonpositive_buffer_witness :
  check_mission 0 cross_primary [cross_other] = Ok ("clear"%string, []).
Proof.
  assert (Ht : exists r, check_mission 0 cross_primary [cross_other] = Ok r).
  { destruct (check_others_total 0 cross_primary [cross_other]) as [cs E];
      [repeat constructor | repeat constructor |].
    unfold check_mission. rewrite E. destruct cs; eexists; reflexivity. }
  destruct Ht as [r Hr]. rewrite Hr. f_equal.
  apply (check_mission_nonpositive_buffer 0 cross_primary [cross_other] r); [lra | exact Hr].
Defined.

(** *** Missions built by [Mission.__post_init__] *)

Lemma Mission_new_Ok_inv wps s e id m :
  Mission_new wps s e id = Ok m ->
  waypoints m <> [] /\ (s < e)%Z /\ forallb (in_window s e) (waypoints m) = true /\
  start_time m = s /\ end_time m = e /\ drone_id m = id /\
  Permutation wps (waypoints m) /\
  waypoints m = (if forallb has_timestamp wps then sort_by_ts wps else wps).
Proof.
  intro H. assert (Hperm : Permutation wps (if forallb has_timestamp wps then sort_by_ts wps else wps))
    by (destruct (forallb has_timestamp wps); [apply sort_by_ts_perm | reflexivity]).
  destruct wps as [|w0 rest]; [discriminate|].
  unfold Mission_new in H. cbv beta iota zeta in H.
  destruct (e <=? s)%Z eqn:Hes; [discriminate|]. apply Z.leb_gt in Hes.
  destruct (forallb (in_window s e) _) eqn:Hw in H; [|discriminate].
  injection H as <-. cbn [waypoints start_time end_time drone_id].
  repeat split; auto.
  change ((if forallb has_timestamp (w0 :: rest) then sort_by_ts (w0 :: rest)
           else w0 :: rest) <> []).
  intro Hn. rewrite Hn in Hperm. apply Permutation_sym, Permutation_nil in Hperm. discriminate.
Qed.

(** A successfully constructed mission has a non-empty waypoint list, a
    window with [start_time < end_time], every timestamped waypoint inside
    that window, the given id and window, and a permutation of the given
    waypoints. *)
Theorem Mission_new_invariant wps s e id m :
  Mission_new wps s e id = Ok m ->
  waypoints m <> [] /\ (start_time m < end_time m)%Z /\
  (forall w t, In w (waypoints m) -> timestamp w = Some t ->
     (start_time m <= t <= end_time m)%Z) /\
  start_time m = s /\ end_time m = e /\ drone_id m = id /\
  Permutation wps (waypoints m).
Proof.
  intro H. destruct (Mission_new_Ok_inv _ _ _ _ _ H)
    as [Hne [Hse [Hw [Hs [He [Hid [Hp _]]]]]]].
  assert (Hin : forall w1 t1, In w1 (waypoints m) -> timestamp w1 = Some t1 ->
                 (s <= t1 <= e)%Z).
  { intros w1 t1 Hin Ht. rewrite forallb_forall in Hw. specialize (Hw w1 Hin).
    unfold in_window in Hw. rewrite Ht in Hw. apply andb_true_iff in Hw as [H1 H2].
    apply Z.leb_le in H1, H2. lia. }
  rewrite Hs, He. split; [exact Hne|]. split; [exact Hse|]. split; [exact Hin|].
  auto.
Qed.

Lemma Mission_new_invariant_witness :
  mkMission [wp 5 5 (hms 0 0 0); wp 0 0 (hms 0 10 0)] (hms 0 0 0) (hms 0 10 0) "d"
    = mkMission [wp 5 5 (hms 0 0 0); wp 0 0 (hms 0 10 0)] (hms 0 0 0) (hms 0 10 0) "d" /\
  (hms 0 0 0 < hms 0 10 0)%Z.
Proof.
  destruct (Mission_new_invariant [wp 0 0 (hms 0 10 0); wp 5 5 (hms 0 0 0)]
              (hms 0 0 0) (hms 0 10 0) "d"
              (mkMission [wp 5 5 (hms 0 0 0); wp 0 0 (hms 0 10 0)]
                         (hms 0 0 0) (hms 0 10 0) "d") eq_refl)
    as [_ [Hse _]].
  split; [reflexivity | exact Hse].
Defined.

Lemma sort_by_ts_sorted_id l : Sorted ts_le l -> sort_by_ts l = l.
Proof.
  induction 1 as [|h t Ht IH Hh]; simpl; [reflexivity|].
  rewrite IH. destruct t as [|h' t']; simpl; [reflexivity|].
  inversion Hh as [|? ? Hle]; subst. unfold ts_le in Hle.
  apply Z.leb_le in Hle. rewrite Hle. reflexivity.
Qed.

(** Constructing a mission again from the fields of a constructed mission
    succeeds and gives the same mission. *)
Theorem Mission_new_roundtrip wps s e id m :
  Mission_new wps s e id = Ok m ->
  Mission_new (waypoints m) (start_time m) (end_time m) (drone_id m) = Ok m.
Proof.
  intro H. destruct (Mission_new_Ok_inv _ _ _ _ _ H)
    as [Hne [Hse [Hw [Hs [He [Hid [Hp Heq]]]]]]].
  assert (Hts : forallb has_timestamp (waypoints m) = forallb has_timestamp wps)
    by (symmetry; apply forallb_perm; exact Hp).
  assert (Hfix : (if forallb has_timestamp (waypoints m)
                  then sort_by_ts (waypoints m) else waypoints m) = waypoints m).
  { rewrite Hts, Heq. destruct (forallb has_timestamp wps); [|reflexivity].
    apply sort_by_ts_sorted_id, sort_by_ts_sorted. }
  rewrite Hs, He.
  destruct m as [wps' s' e' id']; cbn [waypoints start_time end_time drone_id] in *.
  subst s' e' id'.
  destruct wps' as [|w0 rest]; [contradiction|].
  unfold Mission_new. cbv beta iota zeta. rewrite Hfix.
  replace (e <=? s)%Z with false by (symmetry; apply Z.leb_gt; lia).
  rewrite Hw. reflexivity.
Qed.

Lemma Mission_new_roundtrip_witness :
  Mission_new [wp 5 5 (hms 0 0 0); wp 0 0 (hms 0 10 0)] (hms 0 0 0) (hms 0 10 0) "d" =
  Ok (mkMission [wp 5 5 (hms 0 0 0); wp 0 0 (hms 0 10 0)] (hms 0 0 0) (hms 0 10 0) "d").
Proof.
  exact (Mission_new_roundtrip [wp 0 0 (hms 0 10 0); wp 5 5 (hms 0 0 0)]
           (hms 0 0 0) (hms 0 10 0) "d"
           (mkMission [wp 5 5 (hms 0 0 0); wp 0 0 (hms 0 10 0)]
                      (hms 0 0 0) (hms 0 10 0) "d") eq_refl).
Defined.

Lemma check_outer_all_None buf id1 id2 segs1 segs2 :
  (forall a0 a1 b0 b1, In (a0, a1) segs1 -> In (b0, b1) segs2 ->
     check_segment_pair buf id1 id2 a0 a1 b0 b1 = Ok None) ->
  check_outer buf id1 id2 segs1 segs2 = Ok [].
Proof.
  intro H. induction segs1 as [|[a0 a1] rest IH]; simpl; [reflexivity|].
  assert (Hi : check_inner buf id1 id2 a0 a1 segs2 = Ok []).
  { assert (Hs : forall b0 b1, In (b0, b1) segs2 ->
                 check_segment_pair buf id1 id2 a0 a1 b0 b1 = Ok None)
      by (intros; apply H; simpl; auto).
    clear IH H. induction segs2 as [|[b0 b1] rest2 IH2]; simpl; [reflexivity|].
    rewrite Hs by (simpl; auto). simpl.
    rewrite IH2 by (intros; apply Hs; simpl; auto). reflexivity. }
  rewrite Hi. simpl. rewrite IH by (intros; apply H; simpl; auto). reflexivity.
Qed.

Lemma Mission_new_timestamps wps s e id m w :
  Mission_new wps s e id = Ok m -> Forall timed wps -> In w (waypoints m) ->
  exists t, timestamp w = Some t /\ (s <= t <= e)%Z.
Proof.
  intros H Ht Hin. destruct (Mission_new_Ok_inv _ _ _ _ _ H)
    as [_ [_ [Hw [_ [_ [_ [Hp _]]]]]]].
  rewrite Forall_forall in Ht.
  destruct (timed_Some w) as [t Et].
  { apply Ht. apply (Permutation_in w (Permutation_sym Hp)). exact Hin. }
  exists t. split; [exact Et|].
  rewrite forallb_forall in Hw. specialize (Hw w Hin). unfold in_window in Hw.
  rewrite Et in Hw. apply andb_true_iff in Hw as [H1 H2]. apply Z.leb_le in H1, H2. lia.
Qed.

Lemma disjoint_windows_pair buf wps1 s1 e1 id1 wps2 s2 e2 id2 p m :
  Mission_new wps1 s1 e1 id1 = Ok p -> Mission_new wps2 s2 e2 id2 = Ok m ->
  Forall timed wps1 -> Forall timed wps2 -> (e1 < s2)%Z ->
  check_mission_pair buf p m = Ok [] /\ check_mission_pair buf m p = Ok [].
Proof.
  intros Hp Hm T1 T2 Hlt.
  assert (Ts : forall w0 w1 w2 w3, In w0 (waypoints p) -> In w1 (waypoints p) ->
            In w2 (waypoints m) -> In w3 (waypoints m) ->
            exists t0 t1 t2 t3, timestamp w0 = Some t0 /\ timestamp w1 = Some t1 /\
              timestamp w2 = Some t2 /\ timestamp w3 = Some t3 /\
              (t0 < t2)%Z /\ (t0 < t3)%Z /\ (t1 < t2)%Z /\ (t1 < t3)%Z).
  { intros w0 w1 w2 w3 H0 H1 H2 H3.
    destruct (Mission_new_timestamps _ _ _ _ _ _ Hp T1 H0) as [t0 [E0 R0]].
    destruct (Mission_new_timestamps _ _ _ _ _ _ Hp T1 H1) as [t1 [E1 R1]].
    destruct (Mission_new_timestamps _ _ _ _ _ _ Hm T2 H2) as [t2 [E2 R2]].
    destruct (Mission_new_timestamps _ _ _ _ _ _ Hm T2 H3) as [t3 [E3 R3]].
    exists t0, t1, t2, t3. repeat split; auto; lia. }
  unfold check_mission_pair. split; apply check_outer_all_None;
    intros a0 a1 b0 b1 Ha Hb; apply segments_In in Ha as [Ha0 Ha1];
    apply segments_In in Hb as [Hb0 Hb1];
    unfold check_segment_pair, check_temporal_overlap.
  - destruct (Ts a0 a1 b0 b1 Ha0 Ha1 Hb0 Hb1)
      as [t0 [t1 [t2 [t3 [E0 [E1 [E2 [E3 [L02 [L03 [L12 L13]]]]]]]]]]].
    rewrite E0, E1, E2, E3. simpl.
    replace (t1 <? t2)%Z with true by (symmetry; apply Z.ltb_lt; exact L12). reflexivity.
  - destruct (Ts b0 b1 a0 a1 Hb0 Hb1 Ha0 Ha1)
      as [t0 [t1 [t2 [t3 [E0 [E1 [E2 [E3 [L02 [L03 [L12 L13]]]]]]]]]]].
    rewrite E0, E1, E2, E3. simpl.
    replace (t3 <? t0)%Z with false by (symmetry; apply Z.ltb_ge; lia).
    replace (t1 <? t2)%Z with true by (symmetry; apply Z.ltb_lt; exact L12).
    reflexivity.
Qed.

(** Two constructed missions whose waypoints all carry timestamps and whose
    windows are disjoint ([end_time] of the first before [start_time] of the
    second) have no conflict, whichever of the two is the primary one. *)
Theorem disjoint_windows_no_conflict buf wps1 s1 e1 id1 wps2 s2 e2 id2 p m :
  Mission_new wps1 s1 e1 id1 = Ok p -> Mission_new wps2 s2 e2 id2 = Ok m ->
  Forall timed wps1 -> Forall timed wps2 -> (e1 < s2)%Z ->
  check_mission_pair buf p m = Ok [] /\ check_mission_pair buf m p = Ok [].
Proof. apply disjoint_windows_pair. Qed.

Lemma disjoint_windows_no_conflict_witness :
  check_mission_pair 50 cross_primary
    (mkMission [wp 0 10 (hms 1 0 0); wp 10 0 (hms 1 10 0)] (hms 1 0 0) (hms 1 10 0) "late")
    = Ok [] /\
  check_mission_pair 50
    (mkMission [wp 0 10 (hms 1 0 0); wp 10 0 (hms 1 10 0)] (hms 1 0 0) (hms 1 10 0) "late")
    cross_primary = Ok [].
Proof.
  apply (disjoint_windows_no_conflict 50
           [wp 0 0 (hms 0 0 0); wp 10 10 (hms 0 10 0)] (hms 0 0 0) (hms 0 10 0) "primary"
           [wp 0 10 (hms 1 0 0); wp 10 0 (hms 1 10 0)] (hms 1 0 0) (hms 1 10 0) "late");
    [reflexivity | reflexivity | repeat constructor | repeat constructor | unfold hms; lia].
Defined.

(** A straight one-segment path compared with another mission flying the
    very same waypoints is never flagged: the two segments are parallel. *)
Theorem identical_segment_no_conflict buf p m a0 a1 :
  waypoints p = [a0; a1] -> waypoints m = [a0; a1] -> timed a0 -> timed a1 ->
  check_mission_pair buf p m = Ok [].
Proof.
  intros Hp Hm T0 T1. unfold check_mission_pair. rewrite Hp, Hm. simpl.
  assert (Hd : denominator a0 a1 a0 a1 = 0) by (unfold denominator; ring).
  destruct (check_segment_pair_total buf (drone_id p) (drone_id m) a0 a1 a0 a1 T0 T1 T0 T1)
    as [oc E].
  pose proof (check_segment_pair_no_intersection _ _ _ _ _ _ _ _
                (find_intersection_denominator_zero _ _ _ _ Hd) E); subst oc.
  rewrite E. reflexivity.
Qed.

Lemma identical_segment_no_conflict_witness :
  check_mission_pair 50 cross_primary
    (mkMission [wp 0 0 (hms 0 0 0); wp 10 10 (hms 0 10 0)] (hms 0 0 0) (hms 0 10 0) "copy")
  = Ok [].
Proof.
  apply (identical_segment_no_conflict 50 _ _ (wp 0 0 (hms 0 0 0)) (wp 10 10 (hms 0 10 0)));
    reflexivity.
Defined.

(** ** Properties of the mission generator *)

Lemma divide_and_round_bound a b :
  (0 < b)%Z -> (- b <= 2 * (a - b * divide_and_round a b) <= b)%Z.
Proof.
  intro Hb. unfold divide_and_round.
  pose proof (Z.div_mod a b ltac:(lia)) as Ha.
  pose proof (Z.mod_pos_bound a b Hb) as Hr.
  replace (0 <? b)%Z with true by (symmetry; apply Z.ltb_lt; exact Hb).
  generalize (a / b)%Z (a mod b)%Z Ha Hr. intros q r -> Hr'.
  destruct (b <? 2 * r)%Z eqn:E1; cbn [orb].
  - apply Z.ltb_lt in E1. lia.
  - apply Z.ltb_ge in E1.
    destruct ((2 * r =? b)%Z && (q mod 2 =? 1)%Z) eqn:E2.
    + apply andb_true_iff in E2 as [E2 _]. apply Z.eqb_eq in E2. lia.
    + lia.
Qed.

Lemma divide_and_round_exact a b :
  (0 < b)%Z -> (a mod b = 0)%Z -> divide_and_round a b = (a / b)%Z.
Proof.
  intros Hb Hm. unfold divide_and_round. rewrite Hm.
  replace (0 <? b)%Z with true by (symmetry; apply Z.ltb_lt; exact Hb).
  replace (b <? 2 * 0)%Z with false by (symmetry; apply Z.ltb_ge; lia).
  replace (2 * 0 =? b)%Z with false by (symmetry; apply Z.eqb_neq; lia).
  reflexivity.
Qed.

Lemma divide_and_round_nonneg a b :
  (0 <= a)%Z -> (0 < b)%Z -> (0 <= divide_and_round a b)%Z.
Proof.
  intros Ha Hb. pose proof (divide_and_round_bound a b Hb). nia.
Qed.

Lemma Waypoint_new_valid x0 y0 z0 ts :
  0 <= x0 -> 0 <= y0 -> 0 <= z0 ->
  Waypoint_new x0 y0 (Some z0) ts = Ok (mkWaypoint x0 y0 (Some z0) ts).
Proof.
  intros Hx Hy Hz. unfold Waypoint_new.
  rewrite (proj2 (Rltb_false x0 0) Hx), (proj2 (Rltb_false y0 0) Hy),
          (proj2 (Rltb_false z0 0) Hz).
  reflexivity.
Qed.

Lemma generate_waypoints_ok draw st step area minA maxA i k :
  (forall j, draw_ok (draw j)) -> 0 <= area -> 0 <= minA -> 0 <= maxA ->
  generate_waypoints draw st step area minA maxA i k =
  inr (map (generated_waypoint draw st step area minA maxA) (zseq i k)).
Proof.
  intros Hd Ha Hmin Hmax. revert i. induction k as [|k IH]; intro i; simpl; [reflexivity|].
  destruct (Hd i) as [[Hx0 Hx1] [[Hy0 Hy1] [Hz0 Hz1]]].
  rewrite Waypoint_new_valid by (unfold uniform; nra). simpl.
  rewrite IH. reflexivity.
Qed.

Lemma In_zseq j i k : In j (zseq i k) <-> (i <= j < i + Z.of_nat k)%Z.
Proof.
  revert i. induction k as [|k IH]; intro i; simpl; [lia|].
  rewrite IH. lia.
Qed.

Lemma generated_sorted draw st step area minA maxA i k :
  (0 <= step)%Z ->
  Sorted ts_le (map (generated_waypoint draw st step area minA maxA) (zseq i k)).
Proof.
  intro Hs. revert i. induction k as [|k IH]; intro i; simpl; [constructor|].
  constructor; [apply IH|].
  destruct k as [|k]; simpl; constructor.
  unfold ts_le, ts_key, generated_waypoint; simpl. nia.
Qed.

Lemma generated_timed draw st step area minA maxA l :
  forallb has_timestamp (map (generated_waypoint draw st step area minA maxA) l) = true.
Proof. induction l as [|j l IH]; simpl; [reflexivity | exact IH]. Qed.

Lemma generated_in_window draw st step area minA maxA d n :
  (0 <= step)%Z -> (1 <= n)%Z ->
  forallb (in_window st (st + d))
    (map (generated_waypoint draw st step area minA maxA) (zseq 0 (Z.to_nat n))) = true
  <-> (0 <= step * (n - 1) <= d)%Z.
Proof.
  intros Hs Hn. rewrite forallb_forall. split.
  - intro H. specialize (H (generated_waypoint draw st step area minA maxA (n - 1))).
    unfold in_window, generated_waypoint in H; simpl in H.
    assert (Hin : In (n - 1)%Z (zseq 0 (Z.to_nat n))) by (apply In_zseq; lia).
    specialize (H (in_map _ _ _ Hin)).
    apply andb_true_iff in H as [H1 H2]. apply Z.leb_le in H1, H2. lia.
  - intros Hb w Hw. apply in_map_iff in Hw as [j [<- Hj]]. apply In_zseq in Hj.
    unfold in_window, generated_waypoint; simpl.
    apply andb_true_iff. split; apply Z.leb_le; nia.
Qed.

Lemma Mission_new_sorted_timed l s e id :
  l <> [] -> (s < e)%Z -> forallb has_timestamp l = true -> Sorted ts_le l ->
  Mission_new l s e id =
  if forallb (in_window s e) l then Ok (mkMission l s e id)
  else Err (ValueError "Waypoint timestamp must be within mission time window").
Proof.
  intros Hne Hse Ht Hs. destruct l as [|w0 rest]; [contradiction|].
  unfold Mission_new.
  replace (e <=? s)%Z with false by (symmetry; apply Z.leb_gt; exact Hse).
  cbv zeta. rewrite Ht, (sort_by_ts_sorted_id _ Hs). reflexivity.
Qed.

Lemma generate_drone_mission_eq id st d area minA maxA n draw :
  (2 <= n)%Z -> (0 < d)%Z -> 0 <= area -> 0 <= minA -> 0 <= maxA ->
  (forall i, draw_ok (draw i)) ->
  let l := map (generated_waypoint draw st (divide_and_round d (n - 1)) area minA maxA)
               (zseq 0 (Z.to_nat n)) in
  generate_drone_mission id st d area minA maxA n draw =
  if forallb (in_window st (st + d)) l
  then inr (mkMission l st (st + d) id)
  else inl (Raised (ValueError "Waypoint timestamp must be within mission time window")).
Proof.
  intros Hn Hd Ha Hmin Hmax Hdraw l.
  assert (Hstep : (0 <= divide_and_round d (n - 1))%Z)
    by (apply divide_and_round_nonneg; lia).
  unfold generate_drone_mission.
  replace (n - 1 =? 0)%Z with false by (symmetry; apply Z.eqb_neq; lia).
  cbv zeta.
  rewrite generate_waypoints_ok by assumption. cbn [gen_bind]. fold l.
  rewrite Mission_new_sorted_timed.
  - destruct (forallb (in_window st (st + d)) l); reflexivity.
  - unfold l. destruct (Z.to_nat n) eqn:E; [lia|]. discriminate.
  - lia.
  - apply generated_timed.
  - apply generated_sorted, Hstep.
Qed.

(** Extra: [_generate_drone_mission] with [num_waypoints = 1] divides the
    duration by zero, and with [num_waypoints <= 0] builds an empty mission,
    which [Mission.__post_init__] rejects; neither case depends on the other
    arguments or on the random draws. *)
Theorem generate_drone_mission_degenerate_count id st d area minA maxA draw :
  generate_drone_mission id st d area minA maxA 1 draw = inl ZeroDivisionError /\
  (forall n, (n <= 0)%Z ->
   generate_drone_mission id st d area minA maxA n draw =
   inl (Raised (ValueError "Mission must have at least one waypoint"))).
Proof.
  split; [reflexivity|].
  intros n Hn. unfold generate_drone_mission.
  replace (n - 1 =? 0)%Z with false by (symmetry; apply Z.eqb_neq; lia).
  replace (Z.to_nat n) with O by lia. reflexivity.
Qed.

Lemma generate_drone_mission_degenerate_count_witness :
  generate_drone_mission "d" 0 60 1 0 1 0 (fun _ => mkDraw 0 0 0) =
  inl (Raised (ValueError "Mission must have at least one waypoint")).
Proof.
  apply (proj2 (generate_drone_mission_degenerate_count "d" 0 60 1 0 1
                  (fun _ => mkDraw 0 0 0)) 0%Z). lia.
Defined.

(** Extra: for [num_waypoints >= 2], a positive duration, non-negative
    bounds and draws of [random.random()] in [[0,1)], the generator fails only
    when the rounded time step puts the last waypoint after the end time: it
    succeeds iff [time_step * (num_waypoints - 1) <= duration], in particular
    whenever [num_waypoints - 1] divides the duration; a success keeps the
    generated waypoints in generation order with timestamps
    [start_time + time_step * i], and the given start, end and id; the only
    failure is the time-window [ValueError]. *)
Theorem generate_drone_mission_spec id st d area minA maxA n draw :
  (2 <= n)%Z -> (0 < d)%Z -> 0 <= area -> 0 <= minA -> 0 <= maxA ->
  (forall i, draw_ok (draw i)) ->
  let step := divide_and_round d (n - 1) in
  ((exists m, generate_drone_mission id st d area minA maxA n draw = inr m)
   <-> (step * (n - 1) <= d)%Z) /\
  ((d mod (n - 1) = 0)%Z ->
   exists m, generate_drone_mission id st d area minA maxA n draw = inr m) /\
  (forall m, generate_drone_mission id st d area minA maxA n draw = inr m ->
   waypoints m = map (generated_waypoint draw st step area minA maxA)
                     (zseq 0 (Z.to_nat n)) /\
   start_time m = st /\ end_time m = (st + d)%Z /\ drone_id m = id) /\
  (forall e, generate_drone_mission id st d area minA maxA n draw = inl e ->
   e = Raised (ValueError "Waypoint timestamp must be within mission time window")).
Proof.
  intros Hn Hd Ha Hmin Hmax Hdraw step.
  assert (Hstep : (0 <= step)%Z) by (apply divide_and_round_nonneg; lia).
  set (l := map (generated_waypoint draw st step area minA maxA) (zseq 0 (Z.to_nat n))).
  pose proof (generate_drone_mission_eq id st d area minA maxA n draw
                Hn Hd Ha Hmin Hmax Hdraw) as Hgen. fold step l in Hgen.
  assert (Hwin : forallb (in_window st (st + d)) l = true <-> (step * (n - 1) <= d)%Z).
  { unfold l. rewrite generated_in_window by lia. nia. }
  assert (Hiff : (exists m, generate_drone_mission id st d area minA maxA n draw = inr m)
                 <-> (step * (n - 1) <= d)%Z).
  { rewrite Hgen, <- Hwin. destruct (forallb (in_window st (st + d)) l).
    - split; [reflexivity | intros _; eauto].
    - split; [intros [m Hm]; discriminate | discriminate]. }
  split; [exact Hiff|]. split; [|split].
  - intro Hmod. apply Hiff. unfold step.
    rewrite divide_and_round_exact by lia.
    pose proof (Z.div_mod d (n - 1) ltac:(lia)). lia.
  - intros m Hm. rewrite Hgen in Hm.
    destruct (forallb (in_window st (st + d)) l); [|discriminate].
    injection Hm as <-. simpl. auto.
  - intros e He. rewrite Hgen in He.
    destruct (forallb (in_window st (st + d)) l); [discriminate|].
    injection He as <-. reflexivity.
Qed.

Lemma generate_drone_mission_spec_witness :
  (2 <= 4)%Z /\ (0 < 5)%Z /\ 0 <= 1 /\ 0 <= 0 /\ 0 <= 1 /\
  (forall i : Z, draw_ok (mkDraw 0 0 0)) /\
  ~ (exists m, generate_drone_mission "d" 0 5 1 0 1 4 (fun _ => mkDraw 0 0 0) = inr m).
Proof.
  assert (Hd : forall i : Z, draw_ok ((fun _ => mkDraw 0 0 0) i))
    by (intro i; unfold draw_ok; simpl; lra).
  split; [lia|]. split; [lia|]. split; [lra|]. split; [lra|]. split; [lra|].
  split; [exact Hd|].
  intro Hex.
  apply (proj1 (proj1 (generate_drone_mission_spec "d" 0 5 1 0 1 4
           (fun _ => mkDraw 0 0 0) ltac:(lia) ltac:(lia) ltac:(lra) ltac:(lra)
           ltac:(lra) Hd))) in Hex.
  vm_compute in Hex. apply Hex. reflexivity.
Defined.

(** Extra: the [timedelta / int] division of [_generate_drone_mission]
    rounds to the nearest microsecond: for a positive divisor [b] the step
    times [b] differs from the duration by at most [b / 2], and it is exact
    when [b] divides the duration. *)
Theorem time_step_rounding a b :
  (0 < b)%Z ->
  (- b <= 2 * (a - b * divide_and_round a b) <= b)%Z /\
  ((a mod b = 0)%Z -> b * divide_and_round a b = a)%Z.
Proof.
  intro Hb. split; [apply divide_and_round_bound, Hb|].
  intro Hm. rewrite divide_and_round_exact by assumption.
  pose proof (Z.div_mod a b ltac:(lia)). lia.
Qed.

Lemma time_step_rounding_witness :
  (0 < 3)%Z /\ (- 3 <= 2 * (5 - 3 * divide_and_round 5 3) <= 3)%Z.
Proof. split; [lia | apply (proj1 (time_step_rounding 5 3 ltac:(lia)))]. Defined.

Lemma Waypoint_new_Ok_timestamp x0 y0 z0 ts w :
  Waypoint_new x0 y0 z0 ts = Ok w -> timestamp w = ts.
Proof.
  unfold Waypoint_new. destruct (Rltb x0 0 || Rltb y0 0); [discriminate|].
  destruct z0 as [zz|]; [destruct (Rltb zz 0); [discriminate|]|];
    intro H; injection H as <-; reflexivity.
Qed.

Lemma generate_waypoints_timed draw st step area minA maxA i k ws :
  generate_waypoints draw st step area minA maxA i k = inr ws -> Forall timed ws.
Proof.
  revert i ws. induction k as [|k IH]; intros i ws H; cbn [generate_waypoints] in H.
  - injection H as <-. constructor.
  - destruct (Waypoint_new _ _ _ _) as [w|e] eqn:W; cbn [lift gen_bind] in H;
      [|discriminate].
    destruct (generate_waypoints draw st step area minA maxA (i + 1) k) as [e|ws'] eqn:G;
      cbn [gen_bind] in H; [discriminate|].
    injection H as <-. constructor; [|exact (IH _ _ G)].
    unfold timed, has_timestamp. rewrite (Waypoint_new_Ok_timestamp _ _ _ _ _ W). reflexivity.
Qed.

Lemma generate_drone_mission_inv id st d area minA maxA n draw m :
  generate_drone_mission id st d area minA maxA n draw = inr m ->
  exists wps, Mission_new wps st (st + d) id = Ok m /\ Forall timed wps.
Proof.
  unfold generate_drone_mission. destruct (n - 1 =? 0)%Z; [discriminate|]. cbv zeta.
  destruct (generate_waypoints _ _ _ _ _ _ _ _) as [e|wps] eqn:G; cbn [gen_bind];
    [discriminate|].
  destruct (Mission_new wps st (st + d) id) as [m'|e] eqn:M; cbn [lift]; [|discriminate].
  intro H. injection H as <-. exists wps. split; [exact M|].
  exact (generate_waypoints_timed _ _ _ _ _ _ _ _ _ G).
Qed.

Lemma generate_traffic_nth draw n area minA maxA d b now i k ms j m :
  generate_traffic draw n area minA maxA d b now i k = inr ms ->
  nth_error ms j = Some m ->
  exists wps id, Mission_new wps (now + b * (i + Z.of_nat j + 1))
                   (now + b * (i + Z.of_nat j + 1) + d) id = Ok m /\ Forall timed wps.
Proof.
  revert i ms j. induction k as [|k IH]; intros i ms j H Hj; cbn [generate_traffic] in H.
  - injection H as <-. destruct j; discriminate.
  - cbv zeta in H.
    destruct (generate_drone_mission _ _ _ _ _ _ _ _) as [e|m0] eqn:G; cbn [gen_bind] in H;
      [discriminate|].
    destruct (generate_traffic draw n area minA maxA d b now (i + 1) k) as [e|ms'] eqn:T;
      cbn [gen_bind] in H; [discriminate|].
    injection H as <-. destruct j as [|j]; simpl in Hj.
    + injection Hj as <-. apply generate_drone_mission_inv in G as [wps [G1 G2]].
      exists wps, ("traffic_drone_" ++ str_of_nonneg (i + 1))%string.
      replace (i + Z.of_nat 0 + 1)%Z with (i + 1)%Z by lia. auto.
    + destruct (IH _ _ _ T Hj) as [wps [id [M1 M2]]]. exists wps, id.
      replace (i + Z.of_nat (S j) + 1)%Z with (i + 1 + Z.of_nat j + 1)%Z by lia. auto.
Qed.

Lemma check_others_all_clear buf p others :
  (forall m, In m others -> check_mission_pair buf p m = Ok []) ->
  check_others buf p others = Ok [].
Proof.
  induction others as [|m rest IH]; intro H; simpl; [reflexivity|].
  rewrite (H m (or_introl eq_refl)). simpl.
  rewrite IH by (intros m' Hm'; apply H; right; exact Hm'). reflexivity.
Qed.

(** Extra: when the stagger [time_buffer] of [generate_mission_data] exceeds
    [mission_duration], the generated time windows are pairwise disjoint, so
    whatever the random draws and the safety buffer, no two generated
    missions conflict and checking the primary mission against the traffic
    drones answers ["clear"]. *)
Theorem generate_mission_data_no_conflict num n area minA maxA d b now draw
  p others buf :
  (d < b)%Z ->
  generate_mission_data num n area minA maxA d b now draw = inr (p, others) ->
  check_mission buf p others = Ok ("clear"%string, []) /\
  (forall i j mi mj, i <> j -> nth_error (p :: others) i = Some mi ->
   nth_error (p :: others) j = Some mj -> check_mission_pair buf mi mj = Ok []).
Proof.
  intros Hdb H. unfold generate_mission_data in H.
  destruct (generate_drone_mission _ _ _ _ _ _ _ _) as [e|p0] eqn:G; cbn [gen_bind] in H;
    [discriminate|].
  destruct (generate_traffic _ _ _ _ _ _ _ _ _ _) as [e|os] eqn:T; cbn [gen_bind] in H;
    [discriminate|].
  injection H as <- <-.
  assert (Pos : forall j m, nth_error (p0 :: os) j = Some m ->
            exists wps id, Mission_new wps (now + b * Z.of_nat j)
                             (now + b * Z.of_nat j + d) id = Ok m /\ Forall timed wps).
  { intros [|j] m Hj; simpl in Hj.
    - injection Hj as <-. apply generate_drone_mission_inv in G as [wps [G1 G2]].
      exists wps, "primary_drone"%string. replace (now + b * Z.of_nat 0)%Z with now by lia.
      auto.
    - destruct (generate_traffic_nth _ _ _ _ _ _ _ _ _ _ _ _ _ T Hj) as [wps [id [M1 M2]]].
      exists wps, id. replace (now + b * Z.of_nat (S j))%Z
        with (now + b * (0 + Z.of_nat j + 1))%Z by lia. auto. }
  assert (Hd : (0 < d)%Z).
  { destruct (Pos 0%nat p0 eq_refl) as [wps [id [M _]]].
    apply Mission_new_Ok_inv in M. lia. }
  assert (Pair : forall i j mi mj, (i < j)%nat -> nth_error (p0 :: os) i = Some mi ->
            nth_error (p0 :: os) j = Some mj ->
            check_mission_pair buf mi mj = Ok [] /\ check_mission_pair buf mj mi = Ok []).
  { intros i j mi mj Hij Hi Hj.
    destruct (Pos i mi Hi) as [wi [idi [Mi Ti]]].
    destruct (Pos j mj Hj) as [wj [idj [Mj Tj]]].
    apply (disjoint_windows_pair buf _ _ _ _ _ _ _ _ _ _ Mi Mj Ti Tj). nia. }
  assert (All : forall i j mi mj, i <> j -> nth_error (p0 :: os) i = Some mi ->
            nth_error (p0 :: os) j = Some mj -> check_mission_pair buf mi mj = Ok []).
  { intros i j mi mj Hne Hi Hj. destruct (Nat.lt_gt_cases i j) as [[Hlt|Hgt] _];
      [exact Hne| exact (proj1 (Pair _ _ _ _ Hlt Hi Hj))
      | exact (proj2 (Pair _ _ _ _ Hgt Hj Hi))]. }
  split; [|exact All].
  unfold check_mission. rewrite check_others_all_clear; [reflexivity|].
  intros m Hm. apply In_nth_error in Hm as [j Hj].
  apply (All 0%nat (S j)); [discriminate | reflexivity | exact Hj].
Qed.

Lemma generate_mission_data_no_conflict_witness :
  exists p others,
    (10 < 20)%Z /\
    generate_mission_data 1 2 1 0 1 10 20 0 (fun _ _ => mkDraw 0 0 0) = inr (p, others) /\
    check_mission 5 p others = Ok ("clear"%string, []).
Proof.
  assert (Hd : forall i : Z, draw_ok ((fun _ => mkDraw 0 0 0) i))
    by (intro i; unfold draw_ok; simpl; lra).
  assert (E : generate_mission_data 1 2 1 0 1 10 20 0 (fun _ _ => mkDraw 0 0 0) =
    inr (mkMission (map (generated_waypoint (fun _ => mkDraw 0 0 0) 0 10 1 0 1) [0; 1]%Z)
                   0 10 "primary_drone",
         [mkMission (map (generated_waypoint (fun _ => mkDraw 0 0 0) 20 10 1 0 1) [0; 1]%Z)
                    20 30 "traffic_drone_1"])).
  { unfold generate_mission_data. change (Z.to_nat 1) with 1%nat. cbn [generate_traffic].
    rewrite !generate_drone_mission_eq by (first [lia | lra | exact Hd]).
    reflexivity. }
  eexists; eexists. split; [lia|]. split; [exact E|].
  exact (proj1 (generate_mission_data_no_conflict 1 2 1 0 1 10 20 0 _ _ _ 5
                  ltac:(lia) E)).
Defined.
